(** * VideoPlayer: gesture, timer and playback-state logic of the video
    control overlay (src/VideoPlayer.js), embedded as Rocq functions.

    JavaScript numbers are modelled as exact rationals extended with the
    three IEEE special values that division by zero produces.  Rounding is
    abstracted away (arithmetic is exact) and zero is the positive zero.

    The component is a record of [this.props], [this.state], [this.player]
    and [this.mounted], together with the host's table of pending timers, a
    clock, and the log of calls that leave the component (host callbacks,
    the collaborator's [seek], animations).  A method is a function from
    component to component.  Methods assign to [this.state] in place before
    they call [setState], so an assignment is visible to the very next
    read; [setState] with a fresh object is applied at once, as nothing in
    its callers runs after it. *)

From Stdlib Require Import ZArith QArith Qcanon Qround Bool List Lia Lqa.
From Stdlib Require Import Ascii String DecimalString.
Import ListNotations.

Local Open Scope Z_scope.

(** ** JavaScript numbers *)

Module JS.

Inductive number : Type :=
| Fin (q : Qc)
| PInf
| NInf
| NaN.

Definition of_Z (z : Z) : number := Fin (Q2Qc (inject_Z z)).
Definition of_Q (q : Q) : number := Fin (Q2Qc q).

Definition zero : number := of_Z 0.

Definition is_nan (a : number) : bool :=
  match a with NaN => true | _ => false end.

Definition is_finite (a : number) : bool :=
  match a with Fin _ => true | _ => false end.

Definition Qc_leb (x y : Qc) : bool := Qle_bool x y.
Definition Qc_ltb (x y : Qc) : bool := negb (Qle_bool y x).
Definition Qc_eqb (x y : Qc) : bool := Qeq_bool x y.

(** [a <= b]; every comparison with NaN is false. *)
Definition le (a b : number) : bool :=
  match a, b with
  | NaN, _ | _, NaN => false
  | Fin x, Fin y => Qc_leb x y
  | NInf, _ => true
  | _, PInf => true
  | _, _ => false
  end.

(** [a < b] *)
Definition lt (a b : number) : bool :=
  match a, b with
  | NaN, _ | _, NaN => false
  | Fin x, Fin y => Qc_ltb x y
  | NInf, NInf => false
  | NInf, _ => true
  | PInf, _ => false
  | Fin _, PInf => true
  | Fin _, NInf => false
  end.

Definition ge (a b : number) : bool := le b a.
Definition gt (a b : number) : bool := lt b a.

Definition neg (a : number) : number :=
  match a with
  | Fin x => Fin (- x)%Qc
  | PInf => NInf
  | NInf => PInf
  | NaN => NaN
  end.

(** [a + b] *)
Definition add (a b : number) : number :=
  match a, b with
  | NaN, _ | _, NaN => NaN
  | Fin x, Fin y => Fin (x + y)%Qc
  | PInf, NInf | NInf, PInf => NaN
  | PInf, _ | _, PInf => PInf
  | NInf, _ | _, NInf => NInf
  end.

(** [a - b] *)
Definition sub (a b : number) : number := add a (neg b).

(** Sign of a rational: -1, 0 or 1. *)
Definition Qc_sgn (x : Qc) : Z := Z.sgn (Qnum x).

(** An infinity of the given sign; sign 0 gives NaN (0 * Infinity). *)
Definition inf_of_sgn (s : Z) : number :=
  match s with
  | Z0 => NaN
  | Zpos _ => PInf
  | Zneg _ => NInf
  end.

Definition sgn (a : number) : Z :=
  match a with
  | Fin x => Qc_sgn x
  | PInf => 1
  | NInf => -1
  | NaN => 0
  end.

(** [a * b] *)
Definition mul (a b : number) : number :=
  match a, b with
  | NaN, _ | _, NaN => NaN
  | Fin x, Fin y => Fin (x * y)%Qc
  | _, _ => inf_of_sgn (sgn a * sgn b)
  end.

(** [a / b]: a finite non-zero number over zero is an infinity, 0/0 and
    Infinity/Infinity are NaN, a finite number over an infinity is 0. *)
Definition div (a b : number) : number :=
  match a, b with
  | NaN, _ | _, NaN => NaN
  | Fin x, Fin y =>
      if Qc_eqb y 0%Qc then inf_of_sgn (Qc_sgn x) else Fin (x / y)%Qc
  | Fin _, _ => zero
  | _, Fin y => if Qc_eqb y 0%Qc then a else inf_of_sgn (sgn a * Qc_sgn y)
  | _, _ => NaN
  end.

(** [Math.max(a, b)] and [Math.min(a, b)]: NaN when either argument is. *)
Definition max (a b : number) : number :=
  match a, b with
  | NaN, _ | _, NaN => NaN
  | _, _ => if le a b then b else a
  end.

Definition min (a b : number) : number :=
  match a, b with
  | NaN, _ | _, NaN => NaN
  | _, _ => if le a b then a else b
  end.

(** [Math.floor(a)] *)
Definition floor (a : number) : number :=
  match a with
  | Fin x => of_Z (Qfloor x)
  | _ => a
  end.

(** Rounding toward zero. *)
Definition Qtrunc (x : Q) : Z :=
  if Qle_bool 0 x then Qfloor x else Qceiling x.

(** [a % b]: the remainder has the sign of the dividend. *)
Definition rem (a b : number) : number :=
  match a, b with
  | Fin x, Fin y =>
      if Qc_eqb y 0%Qc then NaN
      else Fin (x - y * Q2Qc (inject_Z (Qtrunc (x / y)%Qc)))%Qc
  | Fin _, (PInf | NInf) => a
  | _, _ => NaN
  end.

(** Decimal digits of a non-negative integer. *)
Definition digits (n : Z) : string :=
  NilZero.string_of_uint (N.to_uint (Z.to_N n)).

(** [a.toFixed(0)]: sign, then the integer nearest to the magnitude (the
    larger one on a tie).  Magnitudes from 10^21 on, which JavaScript prints
    in exponent notation, are outside the model. *)
Definition toFixed0 (a : number) : string :=
  match a with
  | Fin x =>
      if Qc_ltb x 0%Qc
      then String "-" (digits (Qfloor (- x + Q2Qc (1 # 2))%Qc))
      else digits (Qfloor (x + Q2Qc (1 # 2))%Qc)
  | PInf => "Infinity"
  | NInf => "-Infinity"
  | NaN => "NaN"
  end.

(** Boolean equality of numbers. *)
Definition eqb (a b : number) : bool :=
  match a, b with
  | Fin x, Fin y => Qc_eqb x y
  | PInf, PInf | NInf, NInf | NaN, NaN => true
  | _, _ => false
  end.

End JS.

Declare Scope js_scope.
Delimit Scope js_scope with js.
Bind Scope js_scope with JS.number.
Infix "+" := JS.add : js_scope.
Infix "-" := JS.sub : js_scope.
Infix "*" := JS.mul : js_scope.
Infix "/" := JS.div : js_scope.
Infix "%%" := JS.rem (at level 40, left associativity) : js_scope.
Infix "<=?" := JS.le : js_scope.
Infix ">=?" := JS.ge : js_scope.
Infix "<?" := JS.lt : js_scope.
Infix ">?" := JS.gt : js_scope.

(** A property that may be absent from its object: reading it yields
    [undefined], which every arithmetic operator and comparison coerces to
    NaN and which is falsy. *)
Definition ToNumber (v : option JS.number) : JS.number :=
  match v with
  | Some n => n
  | None => JS.NaN
  end.

(** Truthiness of a number: 0 and NaN are falsy. *)
Definition truthy (a : JS.number) : bool :=
  match a with
  | JS.Fin x => negb (JS.Qc_eqb x 0%Qc)
  | JS.NaN => false
  | _ => true
  end.

(** lodash [_.padStart(s, len, c)] for a one-character padding [c]. *)
Fixpoint repeat_char (n : nat) (c : ascii) : string :=
  match n with
  | O => EmptyString
  | S n' => String c (repeat_char n' c)
  end.

Definition padStart (s : string) (len : nat) (c : ascii) : string :=
  if Nat.ltb (String.length s) len
  then repeat_char (len - String.length s) c ++ s
  else s.

(** ** The component's data *)

(** [this.state], with the keys the constructor gives it. *)
Record State : Type := mkState {
  resizeMode : string;
  paused : bool;
  muted : bool;
  volume : JS.number;
  rate : JS.number;
  isFullscreen : bool;
  showTimeRemaining : bool;
  volumeTrackWidth : JS.number;
  lastScreenPress : JS.number;
  volumeFillWidth : JS.number;
  seekerFillWidth : JS.number;
  showControls : bool;
  volumePosition : JS.number;
  seekerPosition : JS.number;
  volumeOffset : JS.number;
  seekerOffset : JS.number;
  seeking : bool;
  loading : bool;
  currentTime : JS.number;
  error : bool;
  duration : JS.number
}.

(** [this.player].  [controlTimeout] is the handle of the timer armed last
    (null at first); [seekerWidth] is absent until the seek track is laid
    out (the constructor initialises a key named [seekWidth] instead). *)
Record Player : Type := mkPlayer {
  controlTimeoutDelay : N;
  controlTimeout : option nat;
  volumeWidth : JS.number;
  iconOffset : JS.number;
  seekWidth : JS.number;
  seekerWidth : option JS.number
}.

Record QuizPoint : Type := mkQuizPoint {
  quiz_id : nat;
  quiz_time : JS.number
}.

(** [this.props]: initial values, configuration and which host callbacks
    are supplied. *)
Record Props : Type := mkProps {
  p_resizeMode : string;
  p_paused : bool;
  p_muted : bool;
  p_volume : JS.number;
  p_rate : JS.number;
  showOnStart : bool;
  p_controlTimeout : option N;
  quizPoints : option (list QuizPoint);
  has_onLoad : bool;
  has_onProgress : bool;
  has_onError : bool;
  has_onEnd : bool
}.

(** Calls that leave the component, in the order they are made. *)
Inductive Effect : Type :=
| HostOnLoad (d : JS.number)
| HostOnProgress (t : JS.number)
| HostOnError (err : string)
| HostOnEnd
| VideoSeek (time : JS.number)
| ShowControlAnimation
| HideControlAnimation.

(** The component instance together with the host's timer table: [pending]
    holds the handle and due time of every timer that is armed and has
    neither fired nor been cleared, in arming order. *)
Record Component : Type := mkComponent {
  props : Props;
  state : State;
  player : Player;
  mounted : bool;
  clock : N;
  next_handle : nat;
  pending : list (nat * N);
  log : list Effect
}.

(** Assignment to one key of [this.state]. *)
Definition set_paused (v : bool) (s : State) : State :=
  mkState (resizeMode s) v (muted s) (volume s) (rate s) (isFullscreen s)
    (showTimeRemaining s) (volumeTrackWidth s) (lastScreenPress s)
    (volumeFillWidth s) (seekerFillWidth s) (showControls s) (volumePosition
    s) (seekerPosition s) (volumeOffset s) (seekerOffset s) (seeking s)
    (loading s) (currentTime s) (error s) (duration s).

Definition set_muted (v : bool) (s : State) : State :=
  mkState (resizeMode s) (paused s) v (volume s) (rate s) (isFullscreen s)
    (showTimeRemaining s) (volumeTrackWidth s) (lastScreenPress s)
    (volumeFillWidth s) (seekerFillWidth s) (showControls s) (volumePosition
    s) (seekerPosition s) (volumeOffset s) (seekerOffset s) (seeking s)
    (loading s) (currentTime s) (error s) (duration s).

Definition set_volume (v : JS.number) (s : State) : State :=
  mkState (resizeMode s) (paused s) (muted s) v (rate s) (isFullscreen s)
    (showTimeRemaining s) (volumeTrackWidth s) (lastScreenPress s)
    (volumeFillWidth s) (seekerFillWidth s) (showControls s) (volumePosition
    s) (seekerPosition s) (volumeOffset s) (seekerOffset s) (seeking s)
    (loading s) (currentTime s) (error s) (duration s).

Definition set_showTimeRemaining (v : bool) (s : State) : State :=
  mkState (resizeMode s) (paused s) (muted s) (volume s) (rate s)
    (isFullscreen s) v (volumeTrackWidth s) (lastScreenPress s)
    (volumeFillWidth s) (seekerFillWidth s) (showControls s)
    (volumePosition s) (seekerPosition s) (volumeOffset s) (seekerOffset s)
    (seeking s) (loading s) (currentTime s) (error s) (duration s).

Definition set_volumeTrackWidth (v : JS.number) (s : State) : State :=
  mkState (resizeMode s) (paused s) (muted s) (volume s) (rate s)
    (isFullscreen s) (showTimeRemaining s) v (lastScreenPress s)
    (volumeFillWidth s) (seekerFillWidth s) (showControls s) (volumePosition
    s) (seekerPosition s) (volumeOffset s) (seekerOffset s) (seeking s)
    (loading s) (currentTime s) (error s) (duration s).

Definition set_volumeFillWidth (v : JS.number) (s : State) : State :=
  mkState (resizeMode s) (paused s) (muted s) (volume s) (rate s)
    (isFullscreen s) (showTimeRemaining s) (volumeTrackWidth s)
    (lastScreenPress s) v (seekerFillWidth s) (showControls s)
    (volumePosition s) (seekerPosition s) (volumeOffset s) (seekerOffset s)
    (seeking s) (loading s) (currentTime s) (error s) (duration s).

Definition set_seekerFillWidth (v : JS.number) (s : State) : State :=
  mkState (resizeMode s) (paused s) (muted s) (volume s) (rate s)
    (isFullscreen s) (showTimeRemaining s) (volumeTrackWidth s)
    (lastScreenPress s) (volumeFillWidth s) v (showControls s)
    (volumePosition s) (seekerPosition s) (volumeOffset s) (seekerOffset s)
    (seeking s) (loading s) (currentTime s) (error s) (duration s).

Definition set_showControls (v : bool) (s : State) : State :=
  mkState (resizeMode s) (paused s) (muted s) (volume s) (rate s)
    (isFullscreen s) (showTimeRemaining s) (volumeTrackWidth s)
    (lastScreenPress s) (volumeFillWidth s) (seekerFillWidth s) v
    (volumePosition s) (seekerPosition s) (volumeOffset s) (seekerOffset s)
    (seeking s) (loading s) (currentTime s) (error s) (duration s).

Definition set_volumePosition (v : JS.number) (s : State) : State :=
  mkState (resizeMode s) (paused s) (muted s) (volume s) (rate s)
    (isFullscreen s) (showTimeRemaining s) (volumeTrackWidth s)
    (lastScreenPress s) (volumeFillWidth s) (seekerFillWidth s)
    (showControls s) v (seekerPosition s) (volumeOffset s) (seekerOffset s)
    (seeking s) (loading s) (currentTime s) (error s) (duration s).

Definition set_seekerPosition (v : JS.number) (s : State) : State :=
  mkState (resizeMode s) (paused s) (muted s) (volume s) (rate s)
    (isFullscreen s) (showTimeRemaining s) (volumeTrackWidth s)
    (lastScreenPress s) (volumeFillWidth s) (seekerFillWidth s)
    (showControls s) (volumePosition s) v (volumeOffset s) (seekerOffset s)
    (seeking s) (loading s) (currentTime s) (error s) (duration s).

Definition set_volumeOffset (v : JS.number) (s : State) : State :=
  mkState (resizeMode s) (paused s) (muted s) (volume s) (rate s)
    (isFullscreen s) (showTimeRemaining s) (volumeTrackWidth s)
    (lastScreenPress s) (volumeFillWidth s) (seekerFillWidth s)
    (showControls s) (volumePosition s) (seekerPosition s) v (seekerOffset
    s) (seeking s) (loading s) (currentTime s) (error s) (duration s).

Definition set_seekerOffset (v : JS.number) (s : State) : State :=
  mkState (resizeMode s) (paused s) (muted s) (volume s) (rate s)
    (isFullscreen s) (showTimeRemaining s) (volumeTrackWidth s)
    (lastScreenPress s) (volumeFillWidth s) (seekerFillWidth s)
    (showControls s) (volumePosition s) (seekerPosition s) (volumeOffset s)
    v (seeking s) (loading s) (currentTime s) (error s) (duration s).

Definition set_seeking (v : bool) (s : State) : State :=
  mkState (resizeMode s) (paused s) (muted s) (volume s) (rate s)
    (isFullscreen s) (showTimeRemaining s) (volumeTrackWidth s)
    (lastScreenPress s) (volumeFillWidth s) (seekerFillWidth s)
    (showControls s) (volumePosition s) (seekerPosition s) (volumeOffset s)
    (seekerOffset s) v (loading s) (currentTime s) (error s) (duration s).

Definition set_loading (v : bool) (s : State) : State :=
  mkState (resizeMode s) (paused s) (muted s) (volume s) (rate s)
    (isFullscreen s) (showTimeRemaining s) (volumeTrackWidth s)
    (lastScreenPress s) (volumeFillWidth s) (seekerFillWidth s)
    (showControls s) (volumePosition s) (seekerPosition s) (volumeOffset s)
    (seekerOffset s) (seeking s) v (currentTime s) (error s) (duration s).

Definition set_currentTime (v : JS.number) (s : State) : State :=
  mkState (resizeMode s) (paused s) (muted s) (volume s) (rate s)
    (isFullscreen s) (showTimeRemaining s) (volumeTrackWidth s)
    (lastScreenPress s) (volumeFillWidth s) (seekerFillWidth s)
    (showControls s) (volumePosition s) (seekerPosition s) (volumeOffset s)
    (seekerOffset s) (seeking s) (loading s) v (error s) (duration s).

Definition set_error (v : bool) (s : State) : State :=
  mkState (resizeMode s) (paused s) (muted s) (volume s) (rate s)
    (isFullscreen s) (showTimeRemaining s) (volumeTrackWidth s)
    (lastScreenPress s) (volumeFillWidth s) (seekerFillWidth s)
    (showControls s) (volumePosition s) (seekerPosition s) (volumeOffset s)
    (seekerOffset s) (seeking s) (loading s) (currentTime s) v (duration s).

Definition set_duration (v : JS.number) (s : State) : State :=
  mkState (resizeMode s) (paused s) (muted s) (volume s) (rate s)
    (isFullscreen s) (showTimeRemaining s) (volumeTrackWidth s)
    (lastScreenPress s) (volumeFillWidth s) (seekerFillWidth s)
    (showControls s) (volumePosition s) (seekerPosition s) (volumeOffset s)
    (seekerOffset s) (seeking s) (loading s) (currentTime s) (error s) v.

(** Updates of the parts of the component. *)
Definition with_state (f : State -> State) (c : Component) : Component :=
  mkComponent (props c) (f (state c)) (player c) (mounted c) (clock c)
    (next_handle c) (pending c) (log c).

Definition with_player (f : Player -> Player) (c : Component) : Component :=
  mkComponent (props c) (state c) (f (player c)) (mounted c) (clock c)
    (next_handle c) (pending c) (log c).

Definition with_mounted (b : bool) (c : Component) : Component :=
  mkComponent (props c) (state c) (player c) b (clock c)
    (next_handle c) (pending c) (log c).

Definition emit (e : Effect) (c : Component) : Component :=
  mkComponent (props c) (state c) (player c) (mounted c) (clock c)
    (next_handle c) (pending c) (log c ++ [e]).

Definition set_controlTimeout (h : option nat) (p : Player) : Player :=
  mkPlayer (controlTimeoutDelay p) h (volumeWidth p) (iconOffset p)
    (seekWidth p) (seekerWidth p).

Definition set_seekerWidth (w : option JS.number) (p : Player) : Player :=
  mkPlayer (controlTimeoutDelay p) (controlTimeout p) (volumeWidth p)
    (iconOffset p) (seekWidth p) w.

(** ** Host timers *)

(** [setTimeout(callback, delay)]: a fresh handle, due [delay] ms from now.
    The only callback this component ever schedules is [hideControls]. *)
Definition setTimeout (delay : N) (c : Component) : nat * Component :=
  let h := next_handle c in
  (h, mkComponent (props c) (state c) (player c) (mounted c) (clock c)
        (S h) (pending c ++ [(h, (clock c + delay)%N)]) (log c)).

(** [clearTimeout(handle)]: a no-op on null and on a handle that is no
    longer pending. *)
Definition clearTimeout (handle : option nat) (c : Component) : Component :=
  match handle with
  | None => c
  | Some h =>
      mkComponent (props c) (state c) (player c) (mounted c) (clock c)
        (next_handle c)
        (filter (fun t => negb (Nat.eqb (fst t) h)) (pending c)) (log c)
  end.

(** ** Constructor *)

Definition initial_state (p : Props) : State :=
  {| resizeMode := p_resizeMode p;
     paused := p_paused p;
     muted := p_muted p;
     volume := p_volume p;
     rate := p_rate p;
     isFullscreen := String.eqb (p_resizeMode p) "cover" || false;
     showTimeRemaining := true;
     volumeTrackWidth := JS.zero;
     lastScreenPress := JS.zero;
     volumeFillWidth := JS.zero;
     seekerFillWidth := JS.zero;
     showControls := showOnStart p;
     volumePosition := JS.zero;
     seekerPosition := JS.zero;
     volumeOffset := JS.zero;
     seekerOffset := JS.zero;
     seeking := false;
     loading := false;
     currentTime := JS.zero;
     error := false;
     duration := JS.zero |}.

(** [this.props.controlTimeout || 15000] *)
Definition initial_player (p : Props) : Player :=
  {| controlTimeoutDelay :=
       match p_controlTimeout p with
       | Some (Npos d) => Npos d
       | _ => 15000%N
       end;
     controlTimeout := None;
     volumeWidth := JS.of_Z 150;
     iconOffset := JS.zero;
     seekWidth := JS.zero;
     seekerWidth := None |}.

Definition constructor (p : Props) : Component :=
  {| props := p;
     state := initial_state p;
     player := initial_player p;
     mounted := false;
     clock := 0%N;
     next_handle := 0%nat;
     pending := [];
     log := [] |}.

(** [defaultProps], with no host callback supplied. *)
Definition defaultProps : Props :=
  {| p_resizeMode := "contain";
     p_paused := false;
     p_muted := false;
     p_volume := JS.of_Z 1;
     p_rate := JS.of_Z 1;
     showOnStart := true;
     p_controlTimeout := None;
     quizPoints := Some [];
     has_onLoad := false;
     has_onProgress := false;
     has_onError := false;
     has_onEnd := false |}.

(** ** Methods *)

Section Methods.

Local Open Scope string_scope.
Local Open Scope js_scope.

(** *** Auto-hide timer and control visibility *)

Definition setControlTimeout (c : Component) : Component :=
  let '(h, c) := setTimeout (controlTimeoutDelay (player c)) c in
  with_player (set_controlTimeout (Some h)) c.

Definition clearControlTimeout (c : Component) : Component :=
  clearTimeout (controlTimeout (player c)) c.

Definition resetControlTimeout (c : Component) : Component :=
  setControlTimeout (clearControlTimeout c).

Definition hideControlAnimation : Component -> Component :=
  emit HideControlAnimation.

Definition showControlAnimation : Component -> Component :=
  emit ShowControlAnimation.

Definition hideControls (c : Component) : Component :=
  if mounted c
  then with_state (set_showControls false) (hideControlAnimation c)
  else c.

Definition toggleControls (c : Component) : Component :=
  let c := with_state (fun s => set_showControls (negb (showControls s)) s) c in
  if showControls (state c)
  then setControlTimeout (showControlAnimation c)
  else clearControlTimeout (hideControlAnimation c).

(** The passing of [ms] milliseconds with no other event: every timer that
    falls due runs its callback, [hideControls], and leaves the table. *)
Definition is_due (now : N) (t : nat * N) : bool := (snd t <=? now)%N.

Definition elapse (ms : N) (c : Component) : Component :=
  let now := (clock c + ms)%N in
  let due := filter (is_due now) (pending c) in
  let rest := filter (fun t => negb (is_due now t)) (pending c) in
  fold_left (fun c _ => hideControls c) due
    (mkComponent (props c) (state c) (player c) (mounted c) now
       (next_handle c) rest (log c)).

(** *** Timer display *)

(** [this.state.showRemainingTime]: the state has no key of that name (the
    constructor's key is [showTimeRemaining]), so the read is [undefined]. *)
Definition showRemainingTime (s : State) : bool := false.

Definition formatTime (time : JS.number) (c : Component) : string :=
  let symbol := if showRemainingTime (state c) then "-" else EmptyString in
  let time := JS.min (JS.max time JS.zero) (duration (state c)) in
  let formattedMinutes :=
    padStart (JS.toFixed0 (JS.floor (time / JS.of_Z 60))) 2 "0" in
  let formattedSeconds :=
    padStart (JS.toFixed0 (JS.floor (time %% JS.of_Z 60))) 2 "0" in
  symbol ++ formattedMinutes ++ ":" ++ formattedSeconds.

Definition calculateTime (c : Component) : string :=
  if showTimeRemaining (state c)
  then
    let time := duration (state c) - currentTime (state c) in
    "-" ++ formatTime time c
  else formatTime (currentTime (state c)) c.

Definition toggleTimer (c : Component) : Component :=
  with_state
    (fun s => set_showTimeRemaining (negb (showTimeRemaining s)) s) c.

(** [onPress] of a control built by [renderControl]. *)
Definition renderControl_onPress (callback : Component -> Component)
  (c : Component) : Component :=
  callback (resetControlTimeout c).

(** *** Seek bar *)

Definition constrainToSeekerMinMax (val : JS.number) (c : Component)
  : JS.number :=
  if val <=? JS.zero then JS.zero
  else if val >=? ToNumber (seekerWidth (player c))
  then ToNumber (seekerWidth (player c))
  else val.

Definition setSeekerPosition (position : JS.number) (c : Component)
  : Component :=
  let position := constrainToSeekerMinMax position c in
  with_state (fun s =>
    let s := set_seekerFillWidth position s in
    let s := set_seekerPosition position s in
    if negb (seeking s) then set_seekerOffset position s else s) c.

Definition calculateSeekerPosition (c : Component) : JS.number :=
  ToNumber (seekerWidth (player c))
  * (currentTime (state c) / duration (state c)).

Definition calculateTimeFromSeekerPosition (c : Component) : JS.number :=
  duration (state c)
  * (seekerPosition (state c) / ToNumber (seekerWidth (player c))).

Definition seekTo (time : JS.number) (c : Component) : Component :=
  emit (VideoSeek time) (with_state (set_currentTime time) c).

(** The seek track's [onLayout] handler. *)
Definition seekbar_onLayout (width : JS.number) (c : Component) : Component :=
  with_player (set_seekerWidth (Some width)) c.

(** [left] offsets of the quiz markers, or null. *)
Definition renderQuizPoint (c : Component) (q : QuizPoint) : nat * JS.number :=
  (quiz_id q,
   (ToNumber (seekerWidth (player c)) * quiz_time q) / duration (state c)).

Definition renderQuizPoints (c : Component) : option (list (nat * JS.number)) :=
  match quizPoints (props c) with
  | None => None
  | Some qs =>
      if negb (truthy (ToNumber (seekerWidth (player c))))
         || negb (truthy (duration (state c)))
      then None
      else Some (map (renderQuizPoint c) qs)
  end.

(** *** Volume slider *)

Definition constrainToVolumeMinMax (val : JS.number) (c : Component)
  : JS.number :=
  if val <=? JS.zero then JS.zero
  else if val >=? volumeWidth (player c) + JS.of_Z 9
  then volumeWidth (player c) + JS.of_Z 9
  else val.

Definition setVolumePosition (position : JS.number) (c : Component)
  : Component :=
  let position := constrainToVolumeMinMax position c in
  with_state (fun s =>
    let s := set_volumePosition (position + iconOffset (player c)) s in
    let s := set_volumeFillWidth position s in
    let s :=
      set_volumeTrackWidth (volumeWidth (player c) - volumeFillWidth s) s in
    let s :=
      if volumeFillWidth s <? JS.zero then set_volumeFillWidth JS.zero s
      else s in
    if volumeTrackWidth s >? JS.of_Z 150
    then set_volumeTrackWidth (JS.of_Z 150) s
    else s) c.

Definition calculateVolumeFromVolumePosition (c : Component) : JS.number :=
  volumePosition (state c) / volumeWidth (player c).

Definition calculateVolumePositionFromVolume (c : Component) : JS.number :=
  volumeWidth (player c) * volume (state c).

(** *** Collaborator events *)

Definition onLoad (d : JS.number) (c : Component) : Component :=
  let c := with_state (fun s => set_loading false (set_duration d s)) c in
  let c := if showControls (state c) then setControlTimeout c else c in
  if has_onLoad (props c) then emit (HostOnLoad d) c else c.

Definition onProgress (t : JS.number) (c : Component) : Component :=
  let c := with_state (set_currentTime t) c in
  let c :=
    if negb (seeking (state c))
    then setSeekerPosition (calculateSeekerPosition c) c
    else c in
  if has_onProgress (props c) then emit (HostOnProgress t) c else c.

Definition onError (err : string) (c : Component) : Component :=
  if has_onError (props c)
  then emit (HostOnError err) c
  else with_state (fun s => set_loading false (set_error true s)) c.

(** *** Lifecycle *)

Definition componentDidMount (c : Component) : Component :=
  let position := calculateVolumePositionFromVolume c in
  let c := setVolumePosition position c in
  let c := with_mounted true c in
  with_state (set_volumeOffset position) c.

Definition componentWillUnmount (c : Component) : Component :=
  clearControlTimeout (with_mounted false c).

(** *** Seek pan responder *)

Definition seek_onPanResponderGrant (c : Component) : Component :=
  with_state (set_seeking true) (clearControlTimeout c).

Definition seek_onPanResponderMove (dx : JS.number) (c : Component)
  : Component :=
  let position := seekerOffset (state c) + dx in
  setSeekerPosition position c.

Definition seek_onPanResponderRelease (c : Component) : Component :=
  let time := calculateTimeFromSeekerPosition c in
  if (time >=? duration (state c)) && negb (loading (state c))
  then
    let c := with_state (set_paused true) c in
    if has_onEnd (props c) then emit HostOnEnd c else c
  else
    let c := seekTo time c in
    let c := setControlTimeout c in
    with_state (set_seeking false) c.

(** *** Volume pan responder *)

Definition volume_onPanResponderGrant (c : Component) : Component :=
  clearControlTimeout c.

Definition volume_onPanResponderMove (dx : JS.number) (c : Component)
  : Component :=
  let position := volumeOffset (state c) + dx in
  let c := setVolumePosition position c in
  let c :=
    with_state (set_volume (calculateVolumeFromVolumePosition c)) c in
  if volume (state c) <=? JS.zero
  then with_state (set_muted true) c
  else with_state (set_muted false) c.

Definition volume_onPanResponderRelease (c : Component) : Component :=
  let c := with_state (fun s => set_volumeOffset (volumePosition s) s) c in
  setControlTimeout c.

End Methods.

(** ** Events *)

(** What can happen to a mounted component, one event at a time. *)
Inductive Event : Type :=
| EvLoad (d : JS.number)
| EvProgress (t : JS.number)
| EvError (err : string)
| EvLayout (width : JS.number)
| EvToggleControls
| EvPressTimer
| EvSeekGrant
| EvSeekMove (dx : JS.number)
| EvSeekRelease
| EvVolumeGrant
| EvVolumeMove (dx : JS.number)
| EvVolumeRelease
| EvElapse (ms : N).

Definition step (c : Component) (e : Event) : Component :=
  match e with
  | EvLoad d => onLoad d c
  | EvProgress t => onProgress t c
  | EvError err => onError err c
  | EvLayout w => seekbar_onLayout w c
  | EvToggleControls => toggleControls c
  | EvPressTimer => renderControl_onPress toggleTimer c
  | EvSeekGrant => seek_onPanResponderGrant c
  | EvSeekMove dx => seek_onPanResponderMove dx c
  | EvSeekRelease => seek_onPanResponderRelease c
  | EvVolumeGrant => volume_onPanResponderGrant c
  | EvVolumeMove dx => volume_onPanResponderMove dx c
  | EvVolumeRelease => volume_onPanResponderRelease c
  | EvElapse ms => elapse ms c
  end.

Definition run (c : Component) (es : list Event) : Component :=
  fold_left step es c.

(** A mounted component built from the given props. *)
Definition mount (p : Props) : Component :=
  componentDidMount (constructor p).

(** ** Specification-level functions *)

(** [clamp(v, lo, hi)] as the specification writes it. *)
Definition Qc_max (x y : Qc) : Qc := if JS.Qc_leb x y then y else x.
Definition Qc_min (x y : Qc) : Qc := if JS.Qc_leb x y then x else y.
Definition clamp (v lo hi : Qc) : Qc := Qc_min (Qc_max v lo) hi.

(** A non-negative integer zero-padded to width 2, and the [mm:ss] text of
    a time: minutes = floor(time / 60), seconds = floor(time mod 60). *)
Definition pad2 (n : Z) : string := padStart (JS.digits n) 2 "0".

Definition mm_ss (time : Qc) : string :=
  (pad2 (Qfloor time / 60) ++ ":" ++ pad2 (Qfloor time mod 60))%string.

(** ** Constants and predicates used in the statements *)

(** The 9 px by which the volume handle may pass the end of its track, and
    the 60 of the minutes and seconds. *)
Definition nine : Qc := Q2Qc (inject_Z 9).

Definition sixty : Qc := Q2Qc (inject_Z 60).

(** Membership of the interval [0, 1]. *)
Definition in_unit_interval (a : JS.number) : Prop :=
  JS.le JS.zero a = true /\ JS.le a (JS.of_Z 1) = true.

(** Every key of the state other than [error] and [loading] agrees. *)
Definition agree_but_error_loading (s s' : State) : Prop :=
  resizeMode s' = resizeMode s
  /\ paused s' = paused s
  /\ muted s' = muted s
  /\ volume s' = volume s
  /\ rate s' = rate s
  /\ isFullscreen s' = isFullscreen s
  /\ showTimeRemaining s' = showTimeRemaining s
  /\ volumeTrackWidth s' = volumeTrackWidth s
  /\ lastScreenPress s' = lastScreenPress s
  /\ volumeFillWidth s' = volumeFillWidth s
  /\ seekerFillWidth s' = seekerFillWidth s
  /\ showControls s' = showControls s
  /\ volumePosition s' = volumePosition s
  /\ seekerPosition s' = seekerPosition s
  /\ volumeOffset s' = volumeOffset s
  /\ seekerOffset s' = seekerOffset s
  /\ seeking s' = seeking s
  /\ currentTime s' = currentTime s
  /\ duration s' = duration s.

(** The component apart from its state and its log of outgoing calls. *)
Definition same_timers_and_player (c c' : Component) : Prop :=
  player c' = player c
  /\ mounted c' = mounted c
  /\ pending c' = pending c
  /\ next_handle c' = next_handle c
  /\ clock c' = clock c.

(** The test of [onPanResponderRelease]: the time under the handle has
    reached the duration and the video is not loading. *)
Definition released_at_end (c : Component) : bool :=
  JS.ge (calculateTimeFromSeekerPosition c) (duration (state c))
  && negb (loading (state c)).

(** A run of progress callbacks with the given current times. *)
Definition progress_feed (ts : list JS.number) (c : Component) : Component :=
  fold_left (fun c t => onProgress t c) ts c.

(** ** Scenarios *)

(** Controls hidden at start, no host callbacks. *)
Definition hiddenProps : Props :=
  {| p_resizeMode := "contain";
     p_paused := false;
     p_muted := false;
     p_volume := JS.of_Z 1;
     p_rate := JS.of_Z 1;
     showOnStart := false;
     p_controlTimeout := None;
     quizPoints := Some [];
     has_onLoad := false;
     has_onProgress := false;
     has_onError := false;
     has_onEnd := false |}.

(** The scenario of the specification: a 300 px track, a drag that starts
    at offset 50. *)
Definition seek_scenario : Component :=
  with_state (set_seekerOffset (JS.of_Z 50))
    (seekbar_onLayout (JS.of_Z 300) (mount defaultProps)).

(** The scenario of the specification: 300 px track, duration 200000,
    handle at 150. *)
Definition roundtrip_scenario : Component :=
  with_state
    (fun s => set_seekerPosition (JS.of_Z 150) (set_duration (JS.of_Z 200000) s))
    (seekbar_onLayout (JS.of_Z 300) (mount defaultProps)).

(** A drag to the right end of a 300 px track of a 100 s video. *)
Definition end_drag_scenario : Component :=
  run (mount defaultProps)
    [EvLayout (JS.of_Z 300); EvLoad (JS.of_Z 100); EvSeekGrant;
     EvSeekMove (JS.of_Z 400)].

(** A laid-out 300 px track before the video has loaded (duration 0), and a
    track of width 0 under a loaded 100 s video. *)
Definition unloaded_scenario : Component :=
  run (mount defaultProps) [EvLayout (JS.of_Z 300)].

Definition zero_width_scenario : Component :=
  run (mount defaultProps) [EvLayout (JS.of_Z 0); EvLoad (JS.of_Z 100)].

(** The user shows the controls, then the video finishes loading. *)
Definition show_then_load : list Event :=
  [EvToggleControls; EvLoad (JS.of_Z 120)].

(** ... hides them again, and 10 s later shows them once more. *)
Definition hide_then_show : list Event :=
  [EvToggleControls; EvElapse 10000; EvToggleControls].

(** The scenario of the specification with the times in seconds, and with
    the times in milliseconds; each in remaining and in elapsed mode. *)
Definition timer_seconds : Component :=
  run (mount defaultProps) [EvLoad (JS.of_Z 120); EvProgress (JS.of_Z 45)].

Definition timer_milliseconds : Component :=
  run (mount defaultProps)
    [EvLoad (JS.of_Z 120000); EvProgress (JS.of_Z 45000)].

(** Every host callback supplied. *)
Definition hostProps : Props :=
  {| p_resizeMode := "contain";
     p_paused := false;
     p_muted := false;
     p_volume := JS.of_Z 1;
     p_rate := JS.of_Z 1;
     showOnStart := true;
     p_controlTimeout := Some 5000%N;
     quizPoints := Some [];
     has_onLoad := true;
     has_onProgress := true;
     has_onError := true;
     has_onEnd := true |}.

(** A drag to the middle, and one to the right end, of a 300 px track of a
    100 s video whose host listens to every callback. *)
Definition host_mid_drag : Component :=
  run (mount hostProps)
    [EvLayout (JS.of_Z 300); EvLoad (JS.of_Z 100); EvSeekGrant;
     EvSeekMove (JS.of_Z 150)].

Definition host_end_drag : Component :=
  run (mount hostProps)
    [EvLayout (JS.of_Z 300); EvLoad (JS.of_Z 100); EvSeekGrant;
     EvSeekMove (JS.of_Z 400)].

(** ** The rest of the component *)

Definition set_resizeMode (v : string) (s : State) : State :=
  mkState v (paused s) (muted s) (volume s) (rate s) (isFullscreen s)
    (showTimeRemaining s) (volumeTrackWidth s) (lastScreenPress s)
    (volumeFillWidth s) (seekerFillWidth s) (showControls s)
    (volumePosition s) (seekerPosition s) (volumeOffset s) (seekerOffset s)
    (seeking s) (loading s) (currentTime s) (error s) (duration s).

Definition set_isFullscreen (v : bool) (s : State) : State :=
  mkState (resizeMode s) (paused s) (muted s) (volume s) (rate s) v
    (showTimeRemaining s) (volumeTrackWidth s) (lastScreenPress s)
    (volumeFillWidth s) (seekerFillWidth s) (showControls s)
    (volumePosition s) (seekerPosition s) (volumeOffset s) (seekerOffset s)
    (seeking s) (loading s) (currentTime s) (error s) (duration s).

Definition set_lastScreenPress (v : JS.number) (s : State) : State :=
  mkState (resizeMode s) (paused s) (muted s) (volume s) (rate s)
    (isFullscreen s) (showTimeRemaining s) (volumeTrackWidth s) v
    (volumeFillWidth s) (seekerFillWidth s) (showControls s)
    (volumePosition s) (seekerPosition s) (volumeOffset s) (seekerOffset s)
    (seeking s) (loading s) (currentTime s) (error s) (duration s).

(** The props read by the methods below: one option and which of the
    remaining host callbacks are supplied. *)
Record Options : Type := mkOptions {
  toggleResizeModeOnFullscreen : bool;
  has_onLoadStart : bool;
  has_onEnterFullscreen : bool;
  has_onExitFullscreen : bool;
  has_onPause : bool;
  has_onPlay : bool;
  has_onBack : bool
}.

(** The calls these methods make outside the component: host callbacks and
    the start of one turn of the loader animation. *)
Inductive Notification : Type :=
| HostOnLoadStart
| HostOnEnterFullscreen
| HostOnExitFullscreen
| HostOnPause
| HostOnPlay
| HostOnBack
| LoaderTurn.

(** The component with these props and the calls made so far. *)
Record Widget : Type := mkWidget {
  core : Component;
  options : Options;
  notified : list Notification
}.

Definition lift (f : Component -> Component) (w : Widget) : Widget :=
  mkWidget (f (core w)) (options w) (notified w).

Definition notify (n : Notification) (w : Widget) : Widget :=
  mkWidget (core w) (options w) (notified w ++ [n]).

Definition notify_if (b : bool) (n : Notification) (w : Widget) : Widget :=
  if b then notify n w else w.

(** One call of [loadAnimation]: a turn of the loader starts when the
    component is loading.  The animation calls [loadAnimation] again when
    the turn ends. *)
Definition loadAnimation (w : Widget) : Widget :=
  if loading (state (core w)) then notify LoaderTurn w else w.

Definition onLoadStart (w : Widget) : Widget :=
  let w := lift (with_state (set_loading true)) w in
  let w := loadAnimation w in
  notify_if (has_onLoadStart (options w)) HostOnLoadStart w.

Definition toggleFullscreen (w : Widget) : Widget :=
  let w :=
    lift (with_state (fun s => set_isFullscreen (negb (isFullscreen s)) s)) w in
  let w :=
    if toggleResizeModeOnFullscreen (options w)
    then
      lift (with_state
              (fun s =>
                 set_resizeMode
                   (if isFullscreen s then "cover" else "contain") s)) w
    else w in
  if isFullscreen (state (core w))
  then notify_if (has_onEnterFullscreen (options w)) HostOnEnterFullscreen w
  else notify_if (has_onExitFullscreen (options w)) HostOnExitFullscreen w.

Definition togglePlayPause (w : Widget) : Widget :=
  let w := lift (with_state (fun s => set_paused (negb (paused s)) s)) w in
  if paused (state (core w))
  then notify_if (has_onPause (options w)) HostOnPause w
  else notify_if (has_onPlay (options w)) HostOnPlay w.

Definition onBack (w : Widget) : Widget :=
  notify_if (has_onBack (options w)) HostOnBack w.

(** [onScreenTouch], with the reading of the clock, [new Date().getTime()],
    as its argument. *)
Definition onScreenTouch (time : JS.number) (w : Widget) : Widget :=
  let last := lastScreenPress (state (core w)) in
  let w :=
    if JS.lt (JS.sub time last) (JS.of_Z 300) then toggleFullscreen w else w in
  let w := lift toggleControls w in
  lift (with_state (set_lastScreenPress time)) w.

(** The widget of a mounted component. *)
Definition widget (p : Props) (o : Options) : Widget :=
  mkWidget (mount p) o [].

(** ** Predicates and scenarios for the rest of the component *)

(** The width of the volume track that the constructor sets. *)
Definition c150 : Qc := Q2Qc (inject_Z 150).

(** The volume geometry that [setVolumePosition] stores for a requested
    position: handle position, fill width and remaining track. *)
Definition volume_handle_at (pos : JS.number) (c : Component) : JS.number :=
  JS.add (constrainToVolumeMinMax pos c) (iconOffset (player c)).

Definition volume_fill_at (pos : JS.number) (c : Component) : JS.number :=
  if JS.lt (constrainToVolumeMinMax pos c) JS.zero then JS.zero
  else constrainToVolumeMinMax pos c.

Definition volume_track_at (pos : JS.number) (c : Component) : JS.number :=
  if JS.gt (JS.sub (volumeWidth (player c)) (constrainToVolumeMinMax pos c))
       (JS.of_Z 150)
  then JS.of_Z 150
  else JS.sub (volumeWidth (player c)) (constrainToVolumeMinMax pos c).

(** Every pending timer has a handle below the next one to be issued. *)
Definition handles_fresh (c : Component) : Prop :=
  Forall (fun t => (fst t < next_handle c)%nat) (pending c).

(** At most the timer armed last is pending. *)
Definition only_last_pending (c : Component) : Prop :=
  pending c = []
  \/ exists h due,
       controlTimeout (player c) = Some h /\ pending c = [(h, due)].

(** A timer is pending only while the controls are shown, and then it is
    the one armed last. *)
Definition timer_ok (c : Component) : Prop :=
  only_last_pending c
  /\ (showControls (state c) = false -> pending c = []).

(** When an event can reach the component: the controls answer to presses
    and drags only while they are shown, a release ends a drag (whose
    grant cancelled the timer), and the video loads before any timer is
    armed. *)
Definition event_ok (c : Component) (e : Event) : Prop :=
  match e with
  | EvLoad _ => pending c = []
  | EvSeekRelease | EvVolumeRelease =>
      pending c = [] /\ showControls (state c) = true
  | EvPressTimer | EvSeekGrant | EvSeekMove _ | EvVolumeGrant
  | EvVolumeMove _ => showControls (state c) = true
  | _ => True
  end.

(** A run in which every event can reach the component when it comes. *)
Fixpoint events_ok (c : Component) (es : list Event) : Prop :=
  match es with
  | [] => True
  | e :: es' => event_ok c e /\ events_ok (step c e) es'
  end.

(** A load, a seek drag, a tap that hides the controls, 20 s, a tap that
    shows them, a press on the timer text and 2 s more. *)
Definition ordinary_session : list Event :=
  [EvLayout (JS.of_Z 300); EvLoad (JS.of_Z 100); EvProgress (JS.of_Z 3);
   EvSeekGrant; EvSeekMove (JS.of_Z 120); EvSeekRelease; EvToggleControls;
   EvElapse 20000; EvToggleControls; EvPressTimer; EvElapse 2000].

(** One drag of the volume handle: grant, moves, release. *)
Definition volume_gesture (dxs : list JS.number) : list Event :=
  EvVolumeGrant :: map EvVolumeMove dxs ++ [EvVolumeRelease].

(** One drag of the seek handle. *)
Definition seek_gesture (dxs : list JS.number) : list Event :=
  EvSeekGrant :: map EvSeekMove dxs ++ [EvSeekRelease].

(** All options on, every callback supplied. *)
Definition allOptions : Options :=
  {| toggleResizeModeOnFullscreen := true;
     has_onLoadStart := true;
     has_onEnterFullscreen := true;
     has_onExitFullscreen := true;
     has_onPause := true;
     has_onPlay := true;
     has_onBack := true |}.

(** A loaded 100 s video on a 300 px track with two quiz markers. *)
Definition quizProps : Props :=
  {| p_resizeMode := "contain";
     p_paused := false;
     p_muted := false;
     p_volume := JS.of_Q (1 # 2);
     p_rate := JS.of_Z 1;
     showOnStart := true;
     p_controlTimeout := Some 5000%N;
     quizPoints := Some [mkQuizPoint 1 (JS.of_Z 25); mkQuizPoint 2 (JS.of_Z 50)];
     has_onLoad := false;
     has_onProgress := false;
     has_onError := false;
     has_onEnd := false |}.

Definition quiz_scenario : Component :=
  run (mount quizProps) [EvLayout (JS.of_Z 300); EvLoad (JS.of_Z 100)].

(** * Properties *)

(** ** Facts about numbers *)

Module JSFacts.

Lemma Qc_leb_spec (x y : Qc) :
  BoolSpec (x <= y)%Qc (y < x)%Qc (JS.Qc_leb x y).
Proof.
  unfold JS.Qc_leb.
  destruct (Qle_bool x y) eqn:E; constructor.
  - apply Qle_bool_iff in E. exact E.
  - apply Qcnot_le_lt. intro H. apply Qle_bool_iff in H. congruence.
Qed.

Lemma Qc_ltb_spec (x y : Qc) :
  BoolSpec (x < y)%Qc (y <= x)%Qc (JS.Qc_ltb x y).
Proof.
  unfold JS.Qc_ltb. fold (JS.Qc_leb y x).
  destruct (Qc_leb_spec y x); constructor; assumption.
Qed.

Lemma Qc_eqb_spec (x y : Qc) : BoolSpec (x = y) (x <> y) (JS.Qc_eqb x y).
Proof.
  unfold JS.Qc_eqb.
  destruct (Qeq_bool x y) eqn:E; constructor.
  - apply Qc_is_canon. apply Qeq_bool_iff. exact E.
  - intros ->. rewrite Qeq_bool_refl in E. discriminate.
Qed.

Lemma eqb_eq (a b : JS.number) : JS.eqb a b = true -> a = b.
Proof.
  destruct a, b; simpl; try discriminate; try reflexivity.
  destruct (Qc_eqb_spec q q0); [congruence | discriminate].
Qed.

Lemma le_Fin (x y : Qc) : JS.le (JS.Fin x) (JS.Fin y) = true <-> (x <= y)%Qc.
Proof.
  simpl. destruct (Qc_leb_spec x y); split; intros; try easy.
  exfalso. eapply Qclt_not_le; eassumption.
Qed.

Lemma lt_Fin (x y : Qc) : JS.lt (JS.Fin x) (JS.Fin y) = true <-> (x < y)%Qc.
Proof.
  simpl. destruct (Qc_ltb_spec x y); split; intros; try easy.
  exfalso. eapply Qclt_not_le; eassumption.
Qed.

Lemma zero_Fin : JS.zero = JS.Fin 0%Qc.
Proof. apply eqb_eq. reflexivity. Qed.

(** Comparisons with NaN are false on either side. *)
Lemma le_nan_l (a : JS.number) : JS.le JS.NaN a = false.
Proof. reflexivity. Qed.

Lemma le_nan_r (a : JS.number) : JS.le a JS.NaN = false.
Proof. destruct a; reflexivity. Qed.

End JSFacts.

(** Order goals over [Qc] with no arithmetic, by linear reasoning on the
    underlying fractions. *)
Ltac qc_order :=
  unfold Qcle, Qclt in *;
  repeat match goal with
         | H : ?x = ?y :> Qc |- _ => apply (f_equal this) in H
         end;
  solve [ lra | exfalso; lra ].

(** Case analysis on every comparison of rationals in the goal. *)
Ltac qc_cases :=
  repeat match goal with
         | H : context [JS.Qc_leb ?x ?y] |- _ =>
             destruct (JSFacts.Qc_leb_spec x y)
         | H : context [JS.Qc_ltb ?x ?y] |- _ =>
             destruct (JSFacts.Qc_ltb_spec x y)
         | |- context [JS.Qc_leb ?x ?y] =>
             destruct (JSFacts.Qc_leb_spec x y)
         | |- context [JS.Qc_ltb ?x ?y] =>
             destruct (JSFacts.Qc_ltb_spec x y)
         end.

(** ** Seek bar: clamping of drag positions *)

Section SeekClamp.

Variable c : Component.
Variable w : Qc.
Hypothesis Hw : (0 < w)%Qc.
Hypothesis Hwidth : seekerWidth (player c) = Some (JS.Fin w).

Lemma constrainToSeekerMinMax_Fin (v : Qc) :
  constrainToSeekerMinMax (JS.Fin v) c = JS.Fin (clamp v 0 w).
Proof.
  unfold constrainToSeekerMinMax, clamp, Qc_min, Qc_max, JS.ge.
  rewrite Hwidth, JSFacts.zero_Fin. simpl.
  qc_cases; try reflexivity; try qc_order;
    f_equal; apply Qcle_antisym; qc_order.
Qed.

Lemma clamp_bounds (v : Qc) : (0 <= clamp v 0 w <= w)%Qc.
Proof.
  unfold clamp, Qc_min, Qc_max.
  qc_cases; split; qc_order.
Qed.

Lemma clamp_mono (v1 v2 : Qc) :
  (v1 <= v2)%Qc -> (clamp v1 0 w <= clamp v2 0 w)%Qc.
Proof.
  intros Hv. unfold clamp, Qc_min, Qc_max.
  qc_cases; qc_order.
Qed.

Lemma constrainToSeekerMinMax_idem (v : JS.number) :
  constrainToSeekerMinMax (constrainToSeekerMinMax v c) c
  = constrainToSeekerMinMax v c.
Proof.
  unfold constrainToSeekerMinMax, JS.ge.
  rewrite Hwidth, JSFacts.zero_Fin.
  destruct v as [v | | |]; simpl; try reflexivity.
  - qc_cases; simpl; qc_cases; try reflexivity; qc_order.
  - qc_cases; simpl; qc_cases; try reflexivity; qc_order.
Qed.

End SeekClamp.

Lemma setSeekerPosition_position (v : JS.number) (c : Component) :
  seekerPosition (state (setSeekerPosition v c))
  = constrainToSeekerMinMax v c.
Proof.
  unfold setSeekerPosition. simpl.
  destruct (seeking (state c)); reflexivity.
Qed.



(** ** Seek bar: position and time converters *)

Lemma div_Fin (x y : Qc) :
  y <> 0%Qc -> JS.div (JS.Fin x) (JS.Fin y) = JS.Fin (x / y)%Qc.
Proof.
  intros Hy. simpl.
  destruct (JSFacts.Qc_eqb_spec y 0%Qc); [contradiction | reflexivity].
Qed.

Lemma Qclt_neq_0 (x : Qc) : (0 < x)%Qc -> x <> 0%Qc.
Proof. intros H E. subst x. revert H. apply Qcle_not_lt, Qcle_refl. Qed.



(** ** Volume slider *)

Lemma volume_move_state (dx : JS.number) (c : Component) :
  let c1 := setVolumePosition (JS.add (volumeOffset (state c)) dx) c in
  let v := calculateVolumeFromVolumePosition c1 in
  state (volume_onPanResponderMove dx c)
  = set_muted (JS.le v JS.zero) (set_volume v (state c1)).
Proof.
  intros c1 v. unfold volume_onPanResponderMove.
  fold c1. fold v. simpl.
  destruct (JS.le v JS.zero); reflexivity.
Qed.

Lemma volume_move_player (dx : JS.number) (c : Component) :
  player (volume_onPanResponderMove dx c) = player c.
Proof.
  unfold volume_onPanResponderMove. simpl.
  match goal with |- context [if ?b then _ else _] => destruct b end;
    reflexivity.
Qed.

Lemma setVolumePosition_volumePosition (v : JS.number) (c : Component) :
  volumePosition (state (setVolumePosition v c))
  = JS.add (constrainToVolumeMinMax v c) (iconOffset (player c)).
Proof.
  unfold setVolumePosition. simpl.
  repeat match goal with
         | |- context [if ?b then _ else _] => destruct b
         end; reflexivity.
Qed.

Lemma gt_not_le (a b : JS.number) :
  JS.gt a b = true -> JS.le a b = false.
Proof.
  unfold JS.gt.
  destruct a as [x | | |], b as [y | | |]; simpl; try congruence.
  intros H. qc_cases; try reflexivity; try discriminate. qc_order.
Qed.

(** C7: a volume-drag move stores the volume computed from the handle
    position and, in the same update, sets muted to true when that volume
    is <= 0 and to false when it is > 0. *)
Theorem volume_move_mute_coupling (dx : JS.number) (c : Component) :
  volume (state (volume_onPanResponderMove dx c))
  = calculateVolumeFromVolumePosition (volume_onPanResponderMove dx c)
  /\ (JS.le (volume (state (volume_onPanResponderMove dx c))) JS.zero = true ->
      muted (state (volume_onPanResponderMove dx c)) = true)
  /\ (JS.gt (volume (state (volume_onPanResponderMove dx c))) JS.zero = true ->
      muted (state (volume_onPanResponderMove dx c)) = false).
Proof.
  unfold calculateVolumeFromVolumePosition at 1.
  rewrite volume_move_player, volume_move_state. simpl.
  split; [reflexivity |].
  split.
  - intros H. exact H.
  - intros H. apply gt_not_le. exact H.
Qed.

Lemma volume_move_mute_coupling_witness :
  muted (state (volume_onPanResponderMove (JS.of_Z (-200)) (mount defaultProps)))
  = true
  /\ muted (state (volume_onPanResponderMove (JS.of_Z 20) (mount defaultProps)))
     = false.
Proof.
  split.
  - apply (proj1 (proj2 (volume_move_mute_coupling (JS.of_Z (-200))
                           (mount defaultProps)))).
    vm_compute. reflexivity.
  - apply (proj2 (proj2 (volume_move_mute_coupling (JS.of_Z 20)
                           (mount defaultProps)))).
    vm_compute. reflexivity.
Defined.

Lemma Qcinv_nonneg (x : Qc) : (0 < x)%Qc -> (0 <= / x)%Qc.
Proof.
  unfold Qclt, Qcle, Qcinv. intros H. simpl.
  rewrite Qred_correct. apply Qlt_le_weak, Qinv_lt_0_compat. exact H.
Qed.

Lemma Qcdiv_le_compat (a b w : Qc) :
  (0 < w)%Qc -> (a <= b)%Qc -> (a / w <= b / w)%Qc.
Proof.
  intros Hw Hab. unfold Qcdiv.
  apply Qcmult_le_compat_r; [exact Hab | apply Qcinv_nonneg; exact Hw].
Qed.

Lemma Qcdiv_nonneg (a w : Qc) :
  (0 < w)%Qc -> (0 <= a)%Qc -> (0 <= a / w)%Qc.
Proof.
  intros Hw Ha.
  replace 0%Qc with (0 / w)%Qc at 1 by (unfold Qcdiv; apply Qcmult_0_l).
  apply Qcdiv_le_compat; assumption.
Qed.

Section VolumeClamp.

Variable c : Component.
Variable W : Qc.
Hypothesis HW : (0 < W)%Qc.
Hypothesis Hwidth : volumeWidth (player c) = JS.Fin W.

Lemma Qc_nine_pos : (0 < nine)%Qc.
Proof. reflexivity. Qed.

Lemma volume_upper_pos : (0 < W + nine)%Qc.
Proof.
  replace 0%Qc with (0 + 0)%Qc by apply Qcplus_0_l.
  apply Qclt_le_trans with (W + 0)%Qc.
  - rewrite Qcplus_0_l, Qcplus_0_r. exact HW.
  - apply Qcplus_le_compat; [apply Qcle_refl |].
    apply Qclt_le_weak, Qc_nine_pos.
Qed.

Lemma constrainToVolumeMinMax_bounds (v : JS.number) :
  JS.is_nan v = false ->
  exists p : Qc,
    constrainToVolumeMinMax v c = JS.Fin p /\ (0 <= p <= W + nine)%Qc.
Proof.
  intros Hv. unfold constrainToVolumeMinMax, JS.ge.
  rewrite Hwidth, JSFacts.zero_Fin. cbn [JS.add JS.of_Z]. fold nine.
  pose proof volume_upper_pos as Hup.
  destruct v as [x | | |]; simpl in *; try discriminate.
  - qc_cases.
    + exists 0%Qc. split; [reflexivity | split; qc_order].
    + exists (W + nine)%Qc. split; [reflexivity | split; qc_order].
    + exists x. split; [reflexivity | split; qc_order].
  - exists (W + nine)%Qc. split; [reflexivity | split; qc_order].
  - exists 0%Qc. split; [reflexivity | split; qc_order].
Qed.

End VolumeClamp.




(** ** Collaborator errors *)

(** C9: on a collaborator error, when the host supplied an error handler
    the handler is called once and the state is unchanged; when it did not,
    error becomes true, loading becomes false, every other key of the state
    keeps its value, and nothing is called (no retry, no timer). *)
Theorem onError_policy (err : string) (c : Component) :
  (has_onError (props c) = true ->
   log (onError err c) = log c ++ [HostOnError err]
   /\ state (onError err c) = state c
   /\ same_timers_and_player c (onError err c))
  /\ (has_onError (props c) = false ->
      error (state (onError err c)) = true
      /\ loading (state (onError err c)) = false
      /\ agree_but_error_loading (state c) (state (onError err c))
      /\ log (onError err c) = log c
      /\ same_timers_and_player c (onError err c)).
Proof.
  unfold onError, same_timers_and_player, agree_but_error_loading.
  split; intros ->; simpl; repeat split; reflexivity.
Qed.

Lemma onError_policy_witness :
  log (onError "decode" (mount hostProps)) = [HostOnError "decode"]
  /\ state (onError "decode" (mount hostProps)) = state (mount hostProps)
  /\ error (state (onError "decode" (mount defaultProps))) = true
  /\ loading (state (onError "decode" (mount defaultProps))) = false
  /\ log (onError "decode" (mount defaultProps)) = [].
Proof.
  destruct (onError_policy "decode" (mount hostProps)) as [Hyes _].
  destruct (onError_policy "decode" (mount defaultProps)) as [_ Hno].
  destruct (Hyes eq_refl) as (Hlog & Hstate & _).
  destruct (Hno eq_refl) as (Herr & Hload & _ & Hlog' & _).
  split; [exact Hlog |].
  split; [exact Hstate |].
  split; [exact Herr |].
  split; [exact Hload |].
  exact Hlog'.
Defined.

(** ** Releasing a seek drag *)

(** C4: releasing a seek drag at the end of the video while not loading
    pauses, notifies onEnd (when the host supplied it) and sends no seek
    request, arms no timer and leaves currentTime alone; any other release
    stores the computed time as currentTime, asks the collaborator to seek
    to it, arms the auto-hide timer and clears the seeking flag. *)
Theorem seek_release_branches (c : Component) :
  (released_at_end c = true ->
   paused (state (seek_onPanResponderRelease c)) = true
   /\ log (seek_onPanResponderRelease c)
      = log c ++ (if has_onEnd (props c) then [HostOnEnd] else [])
   /\ currentTime (state (seek_onPanResponderRelease c))
      = currentTime (state c)
   /\ same_timers_and_player c (seek_onPanResponderRelease c))
  /\ (released_at_end c = false ->
      currentTime (state (seek_onPanResponderRelease c))
      = calculateTimeFromSeekerPosition c
      /\ log (seek_onPanResponderRelease c)
         = log c ++ [VideoSeek (calculateTimeFromSeekerPosition c)]
      /\ pending (seek_onPanResponderRelease c)
         = pending c
             ++ [(next_handle c, (clock c + controlTimeoutDelay (player c))%N)]
      /\ controlTimeout (player (seek_onPanResponderRelease c))
         = Some (next_handle c)
      /\ seeking (state (seek_onPanResponderRelease c)) = false
      /\ paused (state (seek_onPanResponderRelease c)) = paused (state c)).
Proof.
  unfold released_at_end, seek_onPanResponderRelease, same_timers_and_player.
  split; intros ->.
  - destruct (has_onEnd (props c)) eqn:E; simpl; rewrite E; simpl;
      rewrite ?app_nil_r; repeat split; reflexivity.
  - simpl. repeat split; reflexivity.
Qed.

Lemma seek_release_branches_witness :
  released_at_end host_end_drag = true
  /\ paused (state (seek_onPanResponderRelease host_end_drag)) = true
  /\ log (seek_onPanResponderRelease host_end_drag)
     = log host_end_drag ++ [HostOnEnd]
  /\ released_at_end host_mid_drag = false
  /\ log (seek_onPanResponderRelease host_mid_drag)
     = log host_mid_drag ++ [VideoSeek (calculateTimeFromSeekerPosition host_mid_drag)]
  /\ seeking (state (seek_onPanResponderRelease host_mid_drag)) = false.
Proof.
  assert (He : released_at_end host_end_drag = true)
    by (vm_compute; reflexivity).
  assert (Hm : released_at_end host_mid_drag = false)
    by (vm_compute; reflexivity).
  destruct (seek_release_branches host_end_drag) as [Hend _].
  destruct (seek_release_branches host_mid_drag) as [_ Hmid].
  destruct (Hend He) as (Hp & Hl & _).
  destruct (Hmid Hm) as (_ & Hl' & _ & _ & Hs & _).
  split; [exact He |].
  split; [exact Hp |].
  split; [exact Hl |].
  split; [exact Hm |].
  split; [exact Hl' |].
  exact Hs.
Defined.

(** ** The seeking flag after a release at the end of the video *)

Lemma onProgress_while_seeking (t : JS.number) (c : Component) :
  seeking (state c) = true ->
  seeking (state (onProgress t c)) = true
  /\ seekerPosition (state (onProgress t c)) = seekerPosition (state c)
  /\ seekerFillWidth (state (onProgress t c)) = seekerFillWidth (state c)
  /\ seekerOffset (state (onProgress t c)) = seekerOffset (state c).
Proof.
  intros H. unfold onProgress. simpl. rewrite H. simpl.
  destruct (has_onProgress (props c)); simpl; rewrite H; repeat split.
Qed.

Lemma progress_feed_while_seeking (ts : list JS.number) :
  forall c : Component,
    seeking (state c) = true ->
    seeking (state (progress_feed ts c)) = true
    /\ seekerPosition (state (progress_feed ts c)) = seekerPosition (state c)
    /\ seekerFillWidth (state (progress_feed ts c)) = seekerFillWidth (state c)
    /\ seekerOffset (state (progress_feed ts c)) = seekerOffset (state c).
Proof.
  induction ts as [| t ts IH]; intros c H.
  - simpl. repeat split. exact H.
  - simpl.
    destruct (onProgress_while_seeking t c H) as (H1 & H2 & H3 & H4).
    destruct (IH (onProgress t c) H1) as (I1 & I2 & I3 & I4).
    unfold progress_feed in *.
    rewrite I2, I3, I4, H2, H3, H4. repeat split. exact I1.
Qed.

Lemma seek_grant_sets_seeking (c : Component) :
  seeking (state (seek_onPanResponderGrant c)) = true.
Proof.
  unfold seek_onPanResponderGrant, clearControlTimeout, clearTimeout.
  destruct (controlTimeout (player c)); reflexivity.
Qed.

Lemma seek_move_keeps_seeking (dx : JS.number) (c : Component) :
  seeking (state (seek_onPanResponderMove dx c)) = seeking (state c).
Proof.
  unfold seek_onPanResponderMove, setSeekerPosition. simpl.
  destruct (seeking (state c)) eqn:E; simpl; exact E.
Qed.

(** C10: when a seek drag (seeking is true) is released at the end of the
    video while not loading, the seeking flag is still true afterwards, and
    it stays true through every following progress callback, none of which
    changes the seeker position, fill width or offset. *)
Theorem seeking_left_set_after_end_release
  (c : Component) (ts : list JS.number) :
  seeking (state c) = true ->
  released_at_end c = true ->
  seeking (state (seek_onPanResponderRelease c)) = true
  /\ seeking (state (progress_feed ts (seek_onPanResponderRelease c))) = true
  /\ seekerPosition (state (progress_feed ts (seek_onPanResponderRelease c)))
     = seekerPosition (state c)
  /\ seekerFillWidth (state (progress_feed ts (seek_onPanResponderRelease c)))
     = seekerFillWidth (state c)
  /\ seekerOffset (state (progress_feed ts (seek_onPanResponderRelease c)))
     = seekerOffset (state c).
Proof.
  intros Hs Hend.
  assert (Hrel : seeking (state (seek_onPanResponderRelease c)) = true
                 /\ seekerPosition (state (seek_onPanResponderRelease c))
                    = seekerPosition (state c)
                 /\ seekerFillWidth (state (seek_onPanResponderRelease c))
                    = seekerFillWidth (state c)
                 /\ seekerOffset (state (seek_onPanResponderRelease c))
                    = seekerOffset (state c)).
  { unfold seek_onPanResponderRelease.
    unfold released_at_end in Hend. rewrite Hend.
    destruct (has_onEnd (props c)) eqn:E; simpl; rewrite E; simpl;
      repeat split; exact Hs. }
  destruct Hrel as (R1 & R2 & R3 & R4).
  split; [exact R1 |].
  destruct (progress_feed_while_seeking ts _ R1) as (P1 & P2 & P3 & P4).
  rewrite P2, P3, P4, R2, R3, R4. repeat split. exact P1.
Qed.

Lemma seeking_left_set_after_end_release_witness :
  seeking (state end_drag_scenario) = true
  /\ released_at_end end_drag_scenario = true
  /\ seeking
       (state
          (progress_feed [JS.of_Z 1; JS.of_Z 2]
             (seek_onPanResponderRelease end_drag_scenario))) = true.
Proof.
  assert (Hs : seeking (state end_drag_scenario) = true) by reflexivity.
  assert (He : released_at_end end_drag_scenario = true)
    by (vm_compute; reflexivity).
  split; [exact Hs |].
  split; [exact He |].
  exact (proj1 (proj2 (seeking_left_set_after_end_release
                         end_drag_scenario [JS.of_Z 1; JS.of_Z 2] Hs He))).
Defined.

(** ** Degenerate geometry *)

Lemma mul_not_finite_r (a b : JS.number) :
  JS.is_finite b = false -> JS.is_finite (JS.mul a b) = false.
Proof.
  destruct a as [x | | |], b as [y | | |]; simpl; try discriminate;
    intros _; try reflexivity;
    match goal with |- JS.is_finite (JS.inf_of_sgn ?s) = false =>
      destruct s; reflexivity
    end.
Qed.

Lemma div_zero_not_finite (a : JS.number) :
  JS.is_finite (JS.div a JS.zero) = false.
Proof.
  destruct a as [x | | |]; try reflexivity.
  unfold JS.div, JS.zero, JS.of_Z.
  destruct (JSFacts.Qc_eqb_spec (Q2Qc (inject_Z 0)) 0%Qc) as [_ | H].
  - destruct (JS.Qc_sgn x); reflexivity.
  - exfalso. apply H. apply Qc_is_canon. reflexivity.
Qed.

(** With duration 0 the position converter never yields a finite number,
    whatever the current time and the track width are. *)
Lemma calculateSeekerPosition_zero_duration (c : Component) :
  duration (state c) = JS.zero ->
  JS.is_finite (calculateSeekerPosition c) = false.
Proof.
  intros H. unfold calculateSeekerPosition. rewrite H.
  apply mul_not_finite_r, div_zero_not_finite.
Qed.

(** With track width 0 the time converter never yields a finite number. *)
Lemma calculateTimeFromSeekerPosition_zero_width (c : Component) :
  seekerWidth (player c) = Some JS.zero ->
  JS.is_finite (calculateTimeFromSeekerPosition c) = false.
Proof.
  intros H. unfold calculateTimeFromSeekerPosition. rewrite H.
  apply mul_not_finite_r, div_zero_not_finite.
Qed.

(** C2 at its failing inputs: with duration 0 the position converter
    returns NaN (current time 0) or Infinity (current time 5), and the NaN
    reaches the state through a progress callback; with track width 0 the
    time converter returns NaN, which a release then sends to the
    collaborator as a seek target.  The quiz-marker renderer, which divides
    by the same duration, does guard: it renders nothing there. *)
Theorem converters_unguarded_on_zero :
  calculateSeekerPosition unloaded_scenario = JS.NaN
  /\ seekerPosition (state (onProgress JS.zero unloaded_scenario)) = JS.NaN
  /\ calculateSeekerPosition
       (with_state (set_currentTime (JS.of_Z 5)) unloaded_scenario) = JS.PInf
  /\ calculateTimeFromSeekerPosition zero_width_scenario = JS.NaN
  /\ log (run zero_width_scenario [EvSeekGrant; EvSeekRelease])
     = [VideoSeek JS.NaN]
  /\ renderQuizPoints unloaded_scenario = None
  /\ renderQuizPoints zero_width_scenario = None.
Proof.
  repeat apply conj; vm_compute; reflexivity.
Qed.

(** ** Auto-hide timer *)

(** Arming a timer never removes one that is pending. *)
Lemma setControlTimeout_pending (c : Component) :
  pending (setControlTimeout c)
  = pending c ++ [(next_handle c, (clock c + controlTimeoutDelay (player c))%N)].
Proof. reflexivity. Qed.

Lemma clearTimeout_only (h : nat) (due : N) (c : Component) :
  pending c = [(h, due)] ->
  pending (clearTimeout (Some h) c) = [].
Proof.
  intros H. simpl. rewrite H. simpl. rewrite Nat.eqb_refl. reflexivity.
Qed.

(** The sibling path: [resetControlTimeout] does cancel before it arms, so
    from a table that holds just the timer armed last it leaves exactly
    one. *)
Lemma resetControlTimeout_single (h : nat) (due : N) (c : Component) :
  pending c = [(h, due)] ->
  controlTimeout (player c) = Some h ->
  pending (resetControlTimeout c)
  = [(next_handle c, (clock c + controlTimeoutDelay (player c))%N)].
Proof.
  intros Hp Hh. unfold resetControlTimeout.
  rewrite setControlTimeout_pending.
  unfold clearControlTimeout. rewrite Hh.
  rewrite (clearTimeout_only h due c Hp). reflexivity.
Qed.

(** C3 at its failing input: after the controls are shown and the video
    then loads, two timers are pending; toggling the controls off cancels
    only the second; when the controls are shown again 10 s later, the
    timer that survived the cancel hides them after 5 s instead of the
    configured 15 s, and the hide callback runs a second time 10 s after
    that. *)
Theorem two_timers_pending_after_load :
  pending (run (mount hiddenProps) show_then_load)
  = [(0%nat, 15000%N); (1%nat, 15000%N)]
  /\ pending (run (mount hiddenProps) (show_then_load ++ [EvToggleControls]))
     = [(0%nat, 15000%N)]
  /\ pending (run (mount hiddenProps) (show_then_load ++ hide_then_show))
     = [(0%nat, 15000%N); (2%nat, 25000%N)]
  /\ showControls
       (state (run (mount hiddenProps) (show_then_load ++ hide_then_show)))
     = true
  /\ showControls
       (state
          (run (mount hiddenProps)
             (show_then_load ++ hide_then_show ++ [EvElapse 5000])))
     = false
  /\ log (run (mount hiddenProps)
            (show_then_load ++ hide_then_show
               ++ [EvElapse 5000; EvElapse 10000]))
     = [ShowControlAnimation; HideControlAnimation; ShowControlAnimation;
        HideControlAnimation; HideControlAnimation]
  /\ List.length
       (pending (setControlTimeout (setControlTimeout (mount hiddenProps))))
     = 2%nat.
Proof.
  repeat apply conj; vm_compute; reflexivity.
Qed.

(** ** Timer display *)

Section FloorArithmetic.

Local Open Scope Q_scope.

Lemma Qfloor_div_60 (x : Q) : Qfloor (x / 60) = (Qfloor x / 60)%Z.
Proof.
  destruct x as [n d]. unfold Qdiv, Qmult, Qinv, Qfloor. simpl.
  rewrite Z.mul_1_r, Pos2Z.inj_mul, Z.div_div; lia.
Qed.

Lemma Qfloor_minus_Z (x : Q) (m : Z) :
  Qfloor (x - inject_Z m) = (Qfloor x - m)%Z.
Proof.
  destruct x as [n d]. unfold Qminus, Qplus, Qopp, Qfloor, inject_Z. simpl.
  rewrite Z.mul_1_r, Pos.mul_1_r.
  replace (n + - m * Z.pos d)%Z with (n + (- m) * Z.pos d)%Z by lia.
  rewrite Z.div_add by lia. lia.
Qed.

Lemma Qfloor_plus_half (n : Z) : Qfloor (inject_Z n + (1 # 2)) = n.
Proof.
  unfold Qplus, Qfloor, inject_Z. simpl.
  replace (n * 2 + 1)%Z with (1 + n * 2)%Z by lia.
  rewrite Z.div_add by lia. reflexivity.
Qed.

End FloorArithmetic.

Section CanonicalFractions.

Local Open Scope Q_scope.

Lemma this_Q2Qc (q : Q) : this (Q2Qc q) == q.
Proof. exact (Qred_correct q). Qed.

Lemma this_inject (z : Z) : this (Q2Qc (inject_Z z)) == inject_Z z.
Proof. apply this_Q2Qc. Qed.

Lemma this_plus (x y : Qc) : this (x + y)%Qc == this x + this y.
Proof. exact (Qred_correct _). Qed.

Lemma this_opp (x : Qc) : this (- x)%Qc == - this x.
Proof. exact (Qred_correct _). Qed.

Lemma this_minus (x y : Qc) : this (x - y)%Qc == this x - this y.
Proof. unfold Qcminus. rewrite this_plus, this_opp. reflexivity. Qed.

Lemma this_mult (x y : Qc) : this (x * y)%Qc == this x * this y.
Proof. exact (Qred_correct _). Qed.

Lemma this_inv (x : Qc) : this (/ x)%Qc == / this x.
Proof. exact (Qred_correct _). Qed.

Lemma this_div (x y : Qc) : this (x / y)%Qc == this x / this y.
Proof. unfold Qcdiv. rewrite this_mult, this_inv. reflexivity. Qed.

End CanonicalFractions.

Lemma Qc_floor_div_60 (x : Qc) :
  Qfloor (x / sixty)%Qc = Qfloor x / 60.
Proof.
  rewrite this_div. unfold sixty. rewrite this_inject.
  apply Qfloor_div_60.
Qed.

Lemma Qfloor_nonneg (x : Qc) : (0 <= x)%Qc -> 0 <= Qfloor x.
Proof.
  intros H. change 0 with (Qfloor 0%Q). apply Qfloor_resp_le. exact H.
Qed.

Lemma Qc_inject_nonneg (n : Z) : 0 <= n -> (0 <= Q2Qc (inject_Z n))%Qc.
Proof.
  intros H. unfold Qcle. rewrite this_inject.
  unfold Qle. simpl. lia.
Qed.

Lemma floor_div_60 (x : Qc) :
  JS.floor (JS.div (JS.Fin x) (JS.of_Z 60)) = JS.of_Z (Qfloor x / 60).
Proof.
  unfold JS.of_Z at 1. fold sixty.
  rewrite div_Fin by (intro H; discriminate H).
  unfold JS.floor. rewrite Qc_floor_div_60. reflexivity.
Qed.

Lemma floor_rem_60 (x : Qc) :
  (0 <= x)%Qc ->
  JS.floor (JS.rem (JS.Fin x) (JS.of_Z 60)) = JS.of_Z (Qfloor x mod 60).
Proof.
  intros Hx. unfold JS.of_Z at 1. fold sixty. unfold JS.rem.
  destruct (JSFacts.Qc_eqb_spec sixty 0%Qc) as [H | _]; [discriminate H |].
  unfold JS.floor. f_equal.
  assert (Ht : JS.Qtrunc (x / sixty)%Qc = Qfloor x / 60).
  { unfold JS.Qtrunc.
    assert (Hq : (0 <= this (x / sixty)%Qc)%Q)
      by (apply (Qcdiv_nonneg x sixty); easy).
    apply Qle_bool_iff in Hq. rewrite Hq. apply Qc_floor_div_60. }
  rewrite Ht, this_minus, this_mult, this_inject.
  unfold sixty. rewrite this_inject, <- inject_Z_mult, Qfloor_minus_Z.
  rewrite Z.mod_eq by lia. reflexivity.
Qed.

Lemma toFixed0_of_Z (n : Z) : 0 <= n -> JS.toFixed0 (JS.of_Z n) = JS.digits n.
Proof.
  intros Hn. unfold JS.toFixed0, JS.of_Z.
  destruct (JSFacts.Qc_ltb_spec (Q2Qc (inject_Z n)) 0%Qc) as [H | _].
  - exfalso. revert H. apply Qcle_not_lt, Qc_inject_nonneg, Hn.
  - f_equal. rewrite this_plus, this_inject.
    change (this (Q2Qc (1 # 2))) with (1 # 2)%Q.
    apply Qfloor_plus_half.
Qed.

Lemma clamp_nonneg (t d : Qc) : (0 <= d)%Qc -> (0 <= clamp t 0 d)%Qc.
Proof.
  intros Hd. unfold clamp, Qc_min, Qc_max. qc_cases; qc_order.
Qed.

Lemma min_max_Fin (t d : Qc) :
  JS.min (JS.max (JS.Fin t) JS.zero) (JS.Fin d) = JS.Fin (clamp t 0 d).
Proof.
  rewrite JSFacts.zero_Fin. unfold clamp, Qc_min, Qc_max. simpl.
  destruct (JS.Qc_leb t 0%Qc); simpl;
    match goal with |- context [JS.Qc_leb ?a ?b] =>
      destruct (JS.Qc_leb a b) end; reflexivity.
Qed.

(** [formatTime] on a finite time, under a finite non-negative duration:
    the clamped time as minutes and seconds, with no sign of its own. *)
Lemma formatTime_mm_ss (c : Component) (d t : Qc) :
  duration (state c) = JS.Fin d ->
  (0 <= d)%Qc ->
  formatTime (JS.Fin t) c = mm_ss (clamp t 0 d).
Proof.
  intros Hd Hd0. unfold formatTime, mm_ss, pad2.
  rewrite Hd, min_max_Fin.
  pose proof (clamp_nonneg t d Hd0) as Hc.
  rewrite floor_div_60, floor_rem_60 by exact Hc.
  rewrite !toFixed0_of_Z.
  - reflexivity.
  - apply Z.mod_pos_bound. lia.
  - apply Z.div_pos; [apply Qfloor_nonneg; exact Hc | lia].
Qed.

Lemma pad2_length (n : Z) :
  0 <= n < 100 -> String.length (pad2 n) = 2%nat.
Proof.
  intros Hn.
  assert (Hall : forallb
                   (fun k => Nat.eqb (String.length (pad2 (Z.of_nat k))) 2)
                   (seq 0 100) = true) by (vm_compute; reflexivity).
  rewrite forallb_forall in Hall.
  specialize (Hall (Z.to_nat n)).
  rewrite Z2Nat.id in Hall by lia.
  apply Nat.eqb_eq, Hall, in_seq. lia.
Qed.

Lemma string_length_app (s1 s2 : string) :
  String.length (s1 ++ s2) = (String.length s1 + String.length s2)%nat.
Proof.
  induction s1 as [| a s1 IH]; simpl; [reflexivity | now rewrite IH].
Qed.

Lemma Qfloor_lt_Z (x : Qc) (n : Z) :
  (x < Q2Qc (inject_Z n))%Qc -> Qfloor x < n.
Proof.
  unfold Qclt. rewrite this_inject. intros H.
  rewrite Zlt_Qlt. eapply Qle_lt_trans; [apply Qfloor_le | exact H].
Qed.

Lemma mm_ss_length (x : Qc) :
  (0 <= x)%Qc -> (x < Q2Qc (inject_Z 6000))%Qc ->
  String.length (mm_ss x) = 5%nat.
Proof.
  intros H0 H1. unfold mm_ss.
  pose proof (Qfloor_nonneg x H0) as Hlo.
  pose proof (Qfloor_lt_Z x 6000 H1) as Hhi.
  assert (Hm : String.length (pad2 (Qfloor x / 60)) = 2%nat).
  { apply pad2_length.
    split; [apply Z.div_pos; lia | apply Z.div_lt_upper_bound; lia]. }
  assert (Hs : String.length (pad2 (Qfloor x mod 60)) = 2%nat).
  { apply pad2_length. pose proof (Z.mod_pos_bound (Qfloor x) 60). lia. }
  rewrite !string_length_app, Hm, Hs. reflexivity.
Qed.




(** * The rest of the component *)

(** ** Volume slider geometry *)

Lemma setVolumePosition_fields
  (c : Component) (v : JS.number) (W i : Qc) :
  (0 < W)%Qc ->
  (W <= Q2Qc (inject_Z 150))%Qc ->
  volumeWidth (player c) = JS.Fin W ->
  iconOffset (player c) = JS.Fin i ->
  JS.is_nan v = false ->
  exists p : Qc,
    (0 <= p <= W + nine)%Qc
    /\ constrainToVolumeMinMax v c = JS.Fin p
    /\ volumeFillWidth (state (setVolumePosition v c)) = JS.Fin p
    /\ volumePosition (state (setVolumePosition v c)) = JS.Fin (p + i)
    /\ volumeTrackWidth (state (setVolumePosition v c)) = JS.Fin (W - p).
Proof.
  intros HW HW150 Hwidth Hicon Hnan.
  destruct (constrainToVolumeMinMax_bounds c W HW Hwidth v Hnan)
    as (p & Hp & Hp0 & Hp1).
  exists p. split; [split; assumption |]. split; [exact Hp |].
  assert (Htrack : (W + - p <= Q2Qc (inject_Z 150))%Qc).
  { apply Qcle_trans with W; [| exact HW150].
    unfold Qcle. rewrite this_plus, this_opp. unfold Qcle in Hp0.
    change (this 0%Qc) with 0%Q in Hp0. lra. }
  unfold setVolumePosition.
  rewrite Hp, Hwidth, Hicon, JSFacts.zero_Fin. unfold JS.gt. simpl.
  destruct (JSFacts.Qc_ltb_spec p 0%Qc) as [H' | H'].
  - exfalso. revert H'. apply Qcle_not_lt. exact Hp0.
  - simpl.
    destruct (JSFacts.Qc_ltb_spec (Q2Qc (inject_Z 150)) (W + - p)%Qc)
      as [H | H].
    + exfalso. revert H. apply Qcle_not_lt. exact Htrack.
    + simpl. repeat split; reflexivity.
Qed.

(** X1: with a volume track of width W in (0, 150], placing the volume
    handle at any position that is a number stores a fill width p in
    [0, W + 9], the handle position p + iconOffset and the remaining track
    W - p; fill and remainder always add up to W, and the remainder is
    negative once the handle passes the end of the track. *)
Theorem setVolumePosition_geometry
  (c : Component) (v : JS.number) (W i : Qc) :
  (0 < W)%Qc ->
  (W <= Q2Qc (inject_Z 150))%Qc ->
  volumeWidth (player c) = JS.Fin W ->
  iconOffset (player c) = JS.Fin i ->
  JS.is_nan v = false ->
  exists p : Qc,
    (0 <= p <= W + nine)%Qc
    /\ constrainToVolumeMinMax v c = JS.Fin p
    /\ volumeFillWidth (state (setVolumePosition v c)) = JS.Fin p
    /\ volumePosition (state (setVolumePosition v c)) = JS.Fin (p + i)
    /\ volumeTrackWidth (state (setVolumePosition v c)) = JS.Fin (W - p).
Proof.
  intros HW HW150 Hwidth Hicon Hnan.
  exact (setVolumePosition_fields c v W i HW HW150 Hwidth Hicon Hnan).
Qed.

Lemma setVolumePosition_geometry_witness :
  exists p : Qc,
    (0 <= p <= Q2Qc (inject_Z 150) + nine)%Qc
    /\ constrainToVolumeMinMax (JS.of_Z 170) (mount defaultProps) = JS.Fin p
    /\ volumeFillWidth
         (state (setVolumePosition (JS.of_Z 170) (mount defaultProps)))
       = JS.Fin p
    /\ volumePosition
         (state (setVolumePosition (JS.of_Z 170) (mount defaultProps)))
       = JS.Fin (p + Q2Qc (inject_Z 0))
    /\ volumeTrackWidth
         (state (setVolumePosition (JS.of_Z 170) (mount defaultProps)))
       = JS.Fin (Q2Qc (inject_Z 150) - p).
Proof.
  apply (setVolumePosition_geometry (mount defaultProps) (JS.of_Z 170)
           (Q2Qc (inject_Z 150)) (Q2Qc (inject_Z 0))).
  - reflexivity.
  - discriminate.
  - reflexivity.
  - reflexivity.
  - reflexivity.
Defined.

Lemma constrainToVolumeMinMax_inside (c : Component) (W x : Qc) :
  (0 < W)%Qc ->
  volumeWidth (player c) = JS.Fin W ->
  (0 <= x <= W + nine)%Qc ->
  constrainToVolumeMinMax (JS.Fin x) c = JS.Fin x.
Proof.
  intros HW Hwidth [H0 H1]. unfold constrainToVolumeMinMax, JS.ge.
  rewrite Hwidth, JSFacts.zero_Fin. cbn [JS.add JS.of_Z JS.le]. fold nine.
  qc_cases; try reflexivity; f_equal; apply Qcle_antisym; assumption.
Qed.

Lemma initial_volume_position (p : Props) (v : Qc) :
  p_volume p = JS.Fin v ->
  calculateVolumePositionFromVolume (constructor p) = JS.Fin (c150 * v).
Proof. intros H. unfold calculateVolumePositionFromVolume. simpl. now rewrite H. Qed.

Lemma mount_state (p : Props) :
  state (mount p)
  = set_volumeOffset (calculateVolumePositionFromVolume (constructor p))
      (state (setVolumePosition
                (calculateVolumePositionFromVolume (constructor p))
                (constructor p))).
Proof. reflexivity. Qed.

Lemma mount_player (p : Props) : player (mount p) = initial_player p.
Proof. reflexivity. Qed.



(** ** Moves within one drag *)

Ltac split_ifs :=
  repeat match goal with
         | |- context [if ?b then _ else _] => destruct b eqn:?
         end.

Lemma component_eq (a b : Component) :
  props a = props b -> state a = state b -> player a = player b ->
  mounted a = mounted b -> clock a = clock b ->
  next_handle a = next_handle b -> pending a = pending b -> log a = log b ->
  a = b.
Proof.
  destruct a, b. simpl. intros. subst. reflexivity.
Qed.

Lemma setVolumePosition_normal (pos : JS.number) (c : Component) :
  setVolumePosition pos c
  = with_state
      (fun s =>
         set_volumeTrackWidth (volume_track_at pos c)
           (set_volumeFillWidth (volume_fill_at pos c)
              (set_volumePosition (volume_handle_at pos c) s))) c.
Proof.
  unfold setVolumePosition, volume_track_at, volume_fill_at,
    volume_handle_at, with_state.
  generalize (constrainToVolumeMinMax pos c) as p. intros p.
  destruct c as [pr st pl mo cl nh pe lg]. destruct st. simpl.
  destruct (JS.lt p JS.zero); simpl;
    match goal with
    | |- context [if ?b then _ else _] => destruct b
    end; reflexivity.
Qed.

Lemma volume_move_normal (dx : JS.number) (c : Component) :
  volume_onPanResponderMove dx c
  = with_state
      (fun s =>
         set_muted
           (JS.le (JS.div (volume_handle_at (JS.add (volumeOffset (state c)) dx) c)
                     (volumeWidth (player c))) JS.zero)
           (set_volume
              (JS.div (volume_handle_at (JS.add (volumeOffset (state c)) dx) c)
                 (volumeWidth (player c)))
              (set_volumeTrackWidth
                 (volume_track_at (JS.add (volumeOffset (state c)) dx) c)
                 (set_volumeFillWidth
                    (volume_fill_at (JS.add (volumeOffset (state c)) dx) c)
                    (set_volumePosition
                       (volume_handle_at (JS.add (volumeOffset (state c)) dx) c)
                       s))))) c.
Proof.
  unfold volume_onPanResponderMove. cbv zeta.
  rewrite setVolumePosition_normal.
  generalize (volume_track_at (JS.add (volumeOffset (state c)) dx) c) as T.
  generalize (volume_fill_at (JS.add (volumeOffset (state c)) dx) c) as F.
  generalize (volume_handle_at (JS.add (volumeOffset (state c)) dx) c) as P.
  intros P F T.
  unfold calculateVolumeFromVolumePosition, with_state.
  destruct c as [pr st pl mo cl nh pe lg]. destruct st. simpl.
  match goal with
  | |- context [if ?b then _ else _] => destruct b
  end; reflexivity.
Qed.

Lemma volume_geometry_player (pos : JS.number) (c c' : Component) :
  player c' = player c ->
  volume_handle_at pos c' = volume_handle_at pos c
  /\ volume_fill_at pos c' = volume_fill_at pos c
  /\ volume_track_at pos c' = volume_track_at pos c.
Proof.
  intros H.
  unfold volume_handle_at, volume_fill_at, volume_track_at,
    constrainToVolumeMinMax.
  rewrite H. repeat split.
Qed.

(** X3: within one drag of the volume handle only the latest move counts:
    a move after another move leaves the component exactly as the later
    move alone would. *)
Theorem volume_move_last_wins (dx1 dx2 : JS.number) (c : Component) :
  volume_onPanResponderMove dx2 (volume_onPanResponderMove dx1 c)
  = volume_onPanResponderMove dx2 c.
Proof.
  set (c1 := volume_onPanResponderMove dx1 c).
  assert (Hpl : player c1 = player c) by apply volume_move_player.
  assert (Hoff : volumeOffset (state c1) = volumeOffset (state c)).
  { subst c1. rewrite volume_move_state.
    rewrite setVolumePosition_normal. reflexivity. }
  rewrite (volume_move_normal dx2 c1), (volume_move_normal dx2 c).
  rewrite Hoff, Hpl.
  destruct (volume_geometry_player (JS.add (volumeOffset (state c)) dx2) c c1 Hpl)
    as (HP & HF & HT).
  rewrite HP, HF, HT.
  generalize (volume_track_at (JS.add (volumeOffset (state c)) dx2) c) as T.
  generalize (volume_fill_at (JS.add (volumeOffset (state c)) dx2) c) as F.
  generalize (volume_handle_at (JS.add (volumeOffset (state c)) dx2) c) as P.
  intros P F T.
  subst c1. rewrite (volume_move_normal dx1 c).
  generalize (volume_track_at (JS.add (volumeOffset (state c)) dx1) c) as T1.
  generalize (volume_fill_at (JS.add (volumeOffset (state c)) dx1) c) as F1.
  generalize (volume_handle_at (JS.add (volumeOffset (state c)) dx1) c) as P1.
  intros P1 F1 T1.
  destruct c as [pr st pl mo cl nh pe lg]. destruct st. reflexivity.
Qed.

(** X4: while a seek drag is in progress (seeking is true) only the latest
    move counts, because moves leave the drag offset alone. *)
Theorem seek_move_last_wins (dx1 dx2 : JS.number) (c : Component) :
  seeking (state c) = true ->
  seek_onPanResponderMove dx2 (seek_onPanResponderMove dx1 c)
  = seek_onPanResponderMove dx2 c.
Proof.
  intros Hs.
  unfold seek_onPanResponderMove, setSeekerPosition, with_state.
  unfold constrainToSeekerMinMax at 1 3. cbn [player state seekerOffset].
  generalize (constrainToSeekerMinMax (JS.add (seekerOffset (state c)) dx1) c)
    as p1. intros p1.
  destruct c as [pr st pl mo cl nh pe lg]. destruct st.
  simpl in Hs. subst. cbn [negb seeking set_seekerFillWidth
    set_seekerPosition set_seekerOffset state player props mounted clock
    next_handle pending log seekerOffset].
  reflexivity.
Qed.

Lemma seek_move_last_wins_witness :
  seek_onPanResponderMove (JS.of_Z 20)
    (seek_onPanResponderMove (JS.of_Z 400)
       (seek_onPanResponderGrant seek_scenario))
  = seek_onPanResponderMove (JS.of_Z 20)
      (seek_onPanResponderGrant seek_scenario).
Proof.
  apply (seek_move_last_wins (JS.of_Z 400) (JS.of_Z 20)
           (seek_onPanResponderGrant seek_scenario)).
  reflexivity.
Defined.

(** Outside a drag each move commits its position as the next offset, so
    moves add up. *)
Lemma seek_move_commits_offset (dx : JS.number) (c : Component) :
  seeking (state c) = false ->
  seekerOffset (state (seek_onPanResponderMove dx c))
  = seekerPosition (state (seek_onPanResponderMove dx c)).
Proof.
  intros H. unfold seek_onPanResponderMove, setSeekerPosition. simpl.
  rewrite H. reflexivity.
Qed.

(** ** Progress updates *)

Lemma clamp_inside (x w : Qc) : (0 <= x <= w)%Qc -> clamp x 0 w = x.
Proof.
  intros [H0 H1]. unfold clamp, Qc_min, Qc_max.
  qc_cases; try reflexivity; apply Qcle_antisym; try assumption; qc_order.
Qed.

Lemma setSeekerPosition_not_seeking (v : JS.number) (c : Component) :
  seeking (state c) = false ->
  seekerPosition (state (setSeekerPosition v c)) = constrainToSeekerMinMax v c
  /\ seekerFillWidth (state (setSeekerPosition v c))
     = constrainToSeekerMinMax v c
  /\ seekerOffset (state (setSeekerPosition v c)) = constrainToSeekerMinMax v c.
Proof.
  intros H. unfold setSeekerPosition. simpl. rewrite H. simpl.
  repeat split.
Qed.

(** X5: outside a drag, a progress callback at time t of a video of
    duration D > 0 on a track of width W > 0 moves the seek handle, the
    fill and the drag offset to W (t / D) clamped to [0, W], which is
    W (t / D) itself for t in [0, D], and records t as the current time. *)
Theorem onProgress_places_handle (c : Component) (W D t : Qc) :
  (0 < W)%Qc ->
  (0 < D)%Qc ->
  seeking (state c) = false ->
  seekerWidth (player c) = Some (JS.Fin W) ->
  duration (state c) = JS.Fin D ->
  seekerPosition (state (onProgress (JS.Fin t) c))
  = JS.Fin (clamp (W * (t / D)) 0 W)
  /\ seekerFillWidth (state (onProgress (JS.Fin t) c))
     = JS.Fin (clamp (W * (t / D)) 0 W)
  /\ seekerOffset (state (onProgress (JS.Fin t) c))
     = JS.Fin (clamp (W * (t / D)) 0 W)
  /\ currentTime (state (onProgress (JS.Fin t) c)) = JS.Fin t
  /\ ((0 <= t <= D)%Qc -> clamp (W * (t / D)) 0 W = (W * (t / D))%Qc).
Proof.
  intros HW HD Hs Hw Hd.
  set (c1 := with_state (set_currentTime (JS.Fin t)) c).
  assert (Hs1 : seeking (state c1) = false) by exact Hs.
  assert (Hpos : calculateSeekerPosition c1 = JS.Fin (W * (t / D))%Qc).
  { unfold calculateSeekerPosition. subst c1.
    cbn [state player with_state currentTime duration set_currentTime].
    rewrite Hw, Hd. cbn [ToNumber].
    rewrite (div_Fin t D (Qclt_neq_0 D HD)). reflexivity. }
  assert (Hst : state (onProgress (JS.Fin t) c)
                = state (setSeekerPosition (calculateSeekerPosition c1) c1)).
  { unfold onProgress. fold c1. rewrite Hs1. simpl.
    destruct (has_onProgress (props c)); reflexivity. }
  rewrite Hst, Hpos.
  destruct (setSeekerPosition_not_seeking (JS.Fin (W * (t / D))%Qc) c1 Hs1)
    as (P1 & P2 & P3).
  rewrite P1, P2, P3.
  rewrite (constrainToSeekerMinMax_Fin c1 W HW Hw).
  split; [reflexivity |]. split; [reflexivity |]. split; [reflexivity |].
  split.
  - unfold setSeekerPosition. simpl. rewrite Hs. reflexivity.
  - intros [Ht0 Ht1]. apply clamp_inside. split.
    + replace 0%Qc with (0 * (t / D))%Qc by apply Qcmult_0_l.
      apply Qcmult_le_compat_r;
        [apply Qclt_le_weak, HW | apply Qcdiv_nonneg; assumption].
    + replace W with (W * 1)%Qc at 2 by apply Qcmult_1_r.
      rewrite !(Qcmult_comm W).
      apply Qcmult_le_compat_r; [| apply Qclt_le_weak, HW].
      replace 1%Qc with (D / D)%Qc
        by (unfold Qcdiv; apply Qcmult_inv_r, Qclt_neq_0, HD).
      apply Qcdiv_le_compat; assumption.
Qed.

Lemma onProgress_places_handle_witness :
  seekerPosition (state (onProgress (JS.Fin (Q2Qc (inject_Z 25))) quiz_scenario))
  = JS.Fin (clamp (Q2Qc (inject_Z 300)
                   * (Q2Qc (inject_Z 25) / Q2Qc (inject_Z 100))) 0
              (Q2Qc (inject_Z 300))).
Proof.
  apply (onProgress_places_handle quiz_scenario (Q2Qc (inject_Z 300))
           (Q2Qc (inject_Z 100)) (Q2Qc (inject_Z 25)));
    reflexivity.
Defined.

(** ** Timers *)

Lemma hideControls_table (c : Component) :
  pending (hideControls c) = pending c
  /\ next_handle (hideControls c) = next_handle c
  /\ player (hideControls c) = player c
  /\ mounted (hideControls c) = mounted c
  /\ clock (hideControls c) = clock c.
Proof.
  unfold hideControls. destruct (mounted c) eqn:E; repeat split; exact E.
Qed.

Lemma hideControls_unmounted (c : Component) :
  mounted c = false -> hideControls c = c.
Proof. intros H. unfold hideControls. now rewrite H. Qed.

Lemma fire_unmounted {A : Type} (due : list A) :
  forall c : Component,
    mounted c = false ->
    fold_left (fun c _ => hideControls c) due c = c.
Proof.
  induction due as [| t due IH]; intros c H; simpl; [reflexivity |].
  rewrite (hideControls_unmounted c H). apply IH, H.
Qed.

Lemma elapse_unmounted (ms : N) (c : Component) :
  mounted c = false ->
  state (elapse ms c) = state c
  /\ log (elapse ms c) = log c
  /\ mounted (elapse ms c) = false.
Proof.
  intros H. unfold elapse. rewrite fire_unmounted by exact H.
  repeat split. exact H.
Qed.

(** The passing of time in several steps. *)
Lemma elapse_all_unmounted (mss : list N) :
  forall c : Component,
    mounted c = false ->
    state (fold_left (fun c ms => elapse ms c) mss c) = state c
    /\ log (fold_left (fun c ms => elapse ms c) mss c) = log c.
Proof.
  induction mss as [| ms mss IH]; intros c H; simpl; [split; reflexivity |].
  destruct (elapse_unmounted ms c H) as (Hs & Hl & Hm).
  destruct (IH (elapse ms c) Hm) as (Is & Il).
  rewrite Is, Il, Hs, Hl. split; reflexivity.
Qed.

(** X6: after the component is unmounted no timer changes it, however many
    are still pending and however much time passes: the state and the log
    of outgoing calls stay as they were at the unmount. *)
Theorem unmounted_timers_are_silent (c : Component) (mss : list N) :
  state (fold_left (fun c ms => elapse ms c) mss (componentWillUnmount c))
  = state c
  /\ log (fold_left (fun c ms => elapse ms c) mss (componentWillUnmount c))
     = log c.
Proof.
  assert (Hm : mounted (componentWillUnmount c) = false).
  { unfold componentWillUnmount, clearControlTimeout, clearTimeout. simpl.
    destruct (controlTimeout (player c)); reflexivity. }
  destruct (elapse_all_unmounted mss _ Hm) as (Hs & Hl).
  rewrite Hs, Hl.
  unfold componentWillUnmount, clearControlTimeout, clearTimeout. simpl.
  destruct (controlTimeout (player c)); split; reflexivity.
Qed.

Lemma elapse_nothing_pending (ms : N) (c : Component) :
  pending c = [] ->
  state (elapse ms c) = state c
  /\ log (elapse ms c) = log c
  /\ pending (elapse ms c) = [].
Proof.
  intros H. unfold elapse. rewrite H. simpl. repeat split.
Qed.

(** X7: with no other timer pending on a mounted component, arming the
    auto-hide timer changes nothing until the configured delay has passed;
    at the delay the hide callback runs once (controls hidden, one hide
    animation) and the table is empty, so more time adds nothing; and a
    cancel right after arming means the callback never runs. *)
Theorem armed_timer_fires_once (c : Component) (early later : N) :
  pending c = [] ->
  mounted c = true ->
  (early < controlTimeoutDelay (player c))%N ->
  (state (elapse early (setControlTimeout c)) = state c
   /\ log (elapse early (setControlTimeout c)) = log c
   /\ pending (elapse early (setControlTimeout c))
      = [(next_handle c, (clock c + controlTimeoutDelay (player c))%N)])
  /\ (showControls
        (state (elapse (controlTimeoutDelay (player c)) (setControlTimeout c)))
      = false
      /\ log (elapse (controlTimeoutDelay (player c)) (setControlTimeout c))
         = log c ++ [HideControlAnimation]
      /\ pending (elapse (controlTimeoutDelay (player c)) (setControlTimeout c))
         = [])
  /\ log (elapse later
            (elapse (controlTimeoutDelay (player c)) (setControlTimeout c)))
     = log c ++ [HideControlAnimation]
  /\ (state (elapse later (clearControlTimeout (setControlTimeout c)))
      = state c
      /\ log (elapse later (clearControlTimeout (setControlTimeout c)))
         = log c).
Proof.
  intros Hp Hm Hearly.
  set (d := controlTimeoutDelay (player c)) in *.
  assert (Hfire : showControls (state (elapse d (setControlTimeout c))) = false
                  /\ log (elapse d (setControlTimeout c))
                     = log c ++ [HideControlAnimation]
                  /\ pending (elapse d (setControlTimeout c)) = []).
  { unfold elapse, setControlTimeout, setTimeout. simpl. rewrite Hp. simpl.
    fold d. unfold is_due. simpl. rewrite N.leb_refl. simpl.
    unfold hideControls. simpl. rewrite Hm. simpl. repeat split. }
  split; [| split; [exact Hfire | split]].
  - unfold elapse, setControlTimeout, setTimeout. simpl. rewrite Hp. simpl.
    fold d. unfold is_due. simpl.
    assert (Hn : (clock c + d <=? clock c + early)%N = false)
      by (apply N.leb_gt; lia).
    rewrite Hn. simpl. repeat split.
  - destruct Hfire as (_ & Hl & Hpe).
    destruct (elapse_nothing_pending later _ Hpe) as (_ & Hl' & _).
    rewrite Hl'. exact Hl.
  - assert (Hpe : pending (clearControlTimeout (setControlTimeout c)) = []).
    { unfold clearControlTimeout, setControlTimeout, setTimeout. simpl.
      rewrite Hp. simpl. rewrite Nat.eqb_refl. reflexivity. }
    destruct (elapse_nothing_pending later _ Hpe) as (Hs & Hl & _).
    rewrite Hs, Hl. split; reflexivity.
Qed.

Lemma armed_timer_fires_once_witness :
  showControls
    (state (elapse 15000 (setControlTimeout (mount defaultProps)))) = false
  /\ log (elapse 15000 (setControlTimeout (mount defaultProps)))
     = [HideControlAnimation].
Proof.
  assert (Hp : pending (mount defaultProps) = []) by reflexivity.
  assert (Hm : mounted (mount defaultProps) = true) by reflexivity.
  assert (He : (14999 < controlTimeoutDelay (player (mount defaultProps)))%N)
    by reflexivity.
  destruct (armed_timer_fires_once (mount defaultProps) 14999 1 Hp Hm He)
    as (_ & (Hs & Hl & _) & _).
  split; [exact Hs | exact Hl].
Defined.

(** ** Timer handles are fresh *)

Lemma fresh_same (c c' : Component) :
  pending c' = pending c ->
  next_handle c' = next_handle c ->
  handles_fresh c -> handles_fresh c'.
Proof. unfold handles_fresh. intros -> ->. trivial. Qed.

Lemma fresh_with_state (f : State -> State) (c : Component) :
  handles_fresh c -> handles_fresh (with_state f c).
Proof. apply fresh_same; reflexivity. Qed.

Lemma fresh_with_player (f : Player -> Player) (c : Component) :
  handles_fresh c -> handles_fresh (with_player f c).
Proof. apply fresh_same; reflexivity. Qed.

Lemma fresh_emit (e : Effect) (c : Component) :
  handles_fresh c -> handles_fresh (emit e c).
Proof. apply fresh_same; reflexivity. Qed.

Lemma fresh_hideControls (c : Component) :
  handles_fresh c -> handles_fresh (hideControls c).
Proof.
  destruct (hideControls_table c) as (H1 & H2 & _).
  apply fresh_same; assumption.
Qed.

Lemma fresh_setControlTimeout (c : Component) :
  handles_fresh c -> handles_fresh (setControlTimeout c).
Proof.
  unfold handles_fresh, setControlTimeout, setTimeout. simpl. intros H.
  apply Forall_app. split.
  - eapply Forall_impl; [| exact H]. simpl. intros t Ht. lia.
  - constructor; [simpl; lia | constructor].
Qed.

Lemma Forall_filter_keep {A : Type} (P : A -> Prop) (f : A -> bool)
  (l : list A) : Forall P l -> Forall P (filter f l).
Proof.
  intros H. apply Forall_forall. intros x Hx.
  apply filter_In in Hx. destruct Hx as [Hx _].
  rewrite Forall_forall in H. apply H, Hx.
Qed.

Lemma fresh_clearControlTimeout (c : Component) :
  handles_fresh c -> handles_fresh (clearControlTimeout c).
Proof.
  unfold handles_fresh, clearControlTimeout, clearTimeout.
  destruct (controlTimeout (player c)); simpl; [| trivial].
  apply Forall_filter_keep.
Qed.

Lemma fresh_fire {A : Type} (due : list A) :
  forall c : Component,
    handles_fresh c ->
    handles_fresh (fold_left (fun c _ => hideControls c) due c).
Proof.
  induction due as [| t due IH]; intros c H; simpl; [exact H |].
  apply IH, fresh_hideControls, H.
Qed.

Lemma fresh_elapse (ms : N) (c : Component) :
  handles_fresh c -> handles_fresh (elapse ms c).
Proof.
  intros H. unfold elapse. apply fresh_fire.
  unfold handles_fresh in *. simpl. apply Forall_filter_keep, H.
Qed.

Ltac fresh_step :=
  repeat first
    [ assumption
    | apply fresh_with_state
    | apply fresh_with_player
    | apply fresh_emit
    | apply fresh_setControlTimeout
    | apply fresh_clearControlTimeout
    | apply fresh_elapse
    | match goal with
      | |- context [if ?b then _ else _] => destruct b
      end ].

Lemma fresh_preserved (c : Component) (e : Event) :
  handles_fresh c -> handles_fresh (step c e).
Proof.
  intros H.
  destruct e; unfold step, onLoad, onProgress, onError, seekbar_onLayout,
    toggleControls, renderControl_onPress, toggleTimer, resetControlTimeout,
    seek_onPanResponderGrant, seek_onPanResponderMove,
    seek_onPanResponderRelease, volume_onPanResponderGrant,
    volume_onPanResponderMove, volume_onPanResponderRelease,
    setSeekerPosition, seekTo, setVolumePosition, showControlAnimation,
    hideControlAnimation; cbv zeta; fresh_step.
Qed.

Lemma fresh_run (es : list Event) :
  forall c : Component, handles_fresh c -> handles_fresh (run c es).
Proof.
  induction es as [| e es IH]; intros c H; simpl; [exact H |].
  apply IH, fresh_preserved, H.
Qed.

Lemma fresh_mount (p : Props) : handles_fresh (mount p).
Proof. constructor. Qed.

Lemma arm_then_cancel (c : Component) :
  handles_fresh c ->
  pending (clearControlTimeout (setControlTimeout c)) = pending c.
Proof.
  unfold handles_fresh, clearControlTimeout, setControlTimeout, setTimeout.
  simpl. intros H. rewrite filter_app. simpl.
  rewrite Nat.eqb_refl. simpl. rewrite app_nil_r.
  induction H as [| t l Ht Hl IH]; simpl; [reflexivity |].
  assert (Hne : Nat.eqb (fst t) (next_handle c) = false)
    by (apply Nat.eqb_neq; lia).
  rewrite Hne. simpl. now rewrite IH.
Qed.

(** X8: in every state reached from a mounted component by any events, the
    handles of the pending timers are all below the next handle to be
    issued; so arming the auto-hide timer and cancelling it at once removes
    exactly the timer just armed and restores the table of pending
    timers. *)
Theorem timer_handles_fresh (p : Props) (es : list Event) :
  handles_fresh (run (mount p) es)
  /\ pending (clearControlTimeout (setControlTimeout (run (mount p) es)))
     = pending (run (mount p) es).
Proof.
  assert (H : handles_fresh (run (mount p) es))
    by apply fresh_run, fresh_mount.
  split; [exact H | apply arm_then_cancel, H].
Qed.

(** ** At most one pending timer *)

Lemma ok_empty (c : Component) : pending c = [] -> timer_ok c.
Proof. intros H. split; [left; exact H | intros _; exact H]. Qed.

Lemma ok_single (c : Component) (h : nat) (due : N) :
  pending c = [(h, due)] ->
  controlTimeout (player c) = Some h ->
  showControls (state c) = true ->
  timer_ok c.
Proof.
  intros Hp Hh Hs. split.
  - right. exists h, due. split; assumption.
  - intros H. congruence.
Qed.

Lemma ok_same (c c' : Component) :
  pending c' = pending c ->
  controlTimeout (player c') = controlTimeout (player c) ->
  showControls (state c') = showControls (state c) ->
  timer_ok c -> timer_ok c'.
Proof.
  unfold timer_ok, only_last_pending. intros -> -> ->. trivial.
Qed.

Lemma ok_clear (c : Component) :
  only_last_pending c -> pending (clearControlTimeout c) = [].
Proof.
  intros [Hp | (h & due & Hh & Hp)];
    unfold clearControlTimeout, clearTimeout.
  - destruct (controlTimeout (player c)); simpl; rewrite Hp; reflexivity.
  - rewrite Hh. simpl. rewrite Hp. simpl. rewrite Nat.eqb_refl. reflexivity.
Qed.

Lemma last_same (c c' : Component) :
  pending c' = pending c ->
  controlTimeout (player c') = controlTimeout (player c) ->
  only_last_pending c -> only_last_pending c'.
Proof. unfold only_last_pending. intros -> ->. trivial. Qed.

Lemma ok_arm (c : Component) :
  pending c = [] ->
  showControls (state c) = true ->
  timer_ok (setControlTimeout c).
Proof.
  intros Hp Hs.
  apply (ok_single _ (next_handle c)
           (clock c + controlTimeoutDelay (player c))%N).
  - unfold setControlTimeout, setTimeout. simpl. rewrite Hp. reflexivity.
  - reflexivity.
  - exact Hs.
Qed.

Lemma setSeekerPosition_view (v : JS.number) (c : Component) :
  pending (setSeekerPosition v c) = pending c
  /\ controlTimeout (player (setSeekerPosition v c)) = controlTimeout (player c)
  /\ showControls (state (setSeekerPosition v c)) = showControls (state c).
Proof.
  unfold setSeekerPosition. simpl.
  destruct (seeking (state c)); repeat split.
Qed.

Lemma onProgress_view (t : JS.number) (c : Component) :
  pending (onProgress t c) = pending c
  /\ controlTimeout (player (onProgress t c)) = controlTimeout (player c)
  /\ showControls (state (onProgress t c)) = showControls (state c).
Proof.
  unfold onProgress. cbv zeta.
  set (c1 := with_state (set_currentTime t) c).
  destruct (setSeekerPosition_view (calculateSeekerPosition c1) c1)
    as (H1 & H2 & H3).
  set (c2 := setSeekerPosition (calculateSeekerPosition c1) c1) in *.
  destruct (negb (seeking (state c1))).
  - destruct (has_onProgress (props c2));
      cbn [emit pending player state]; rewrite H1, H2, H3; repeat split.
  - destruct (has_onProgress (props c1)); repeat split.
Qed.

Lemma volume_move_view (dx : JS.number) (c : Component) :
  pending (volume_onPanResponderMove dx c) = pending c
  /\ controlTimeout (player (volume_onPanResponderMove dx c))
     = controlTimeout (player c)
  /\ showControls (state (volume_onPanResponderMove dx c))
     = showControls (state c).
Proof. rewrite volume_move_normal. repeat split. Qed.

Lemma hideControls_pending_player (c : Component) :
  pending (hideControls c) = pending c
  /\ controlTimeout (player (hideControls c)) = controlTimeout (player c).
Proof. unfold hideControls. destruct (mounted c); split; reflexivity. Qed.

Lemma elapse_ok (ms : N) (c : Component) : timer_ok c -> timer_ok (elapse ms c).
Proof.
  intros Hok. destruct Hok as [[Hp | (h & due & Hh & Hp)] Hhid].
  - apply ok_empty. apply (elapse_nothing_pending ms c Hp).
  - unfold elapse. rewrite Hp. simpl.
    destruct (is_due (clock c + ms) (h, due)) eqn:E; simpl.
    + apply ok_empty.
      destruct (hideControls_pending_player
                  (mkComponent (props c) (state c) (player c) (mounted c)
                     (clock c + ms) (next_handle c) [] (log c))) as [H _].
      rewrite H. reflexivity.
    + destruct (showControls (state c)) eqn:Hs.
      * apply (ok_single _ h due); [reflexivity | exact Hh | exact Hs].
      * specialize (Hhid eq_refl). congruence.
Qed.

Lemma timer_ok_preserved (c : Component) (e : Event) :
  timer_ok c -> event_ok c e -> timer_ok (step c e).
Proof.
  intros Hok Hev. destruct e; cbn [step event_ok] in *.
  - (* load *)
    unfold onLoad. cbv zeta.
    set (c1 := with_state (fun s => set_loading false (set_duration d s)) c).
    assert (H1 : pending c1 = []) by exact Hev.
    destruct (showControls (state c1)) eqn:Hs.
    + assert (Hok1 : timer_ok (setControlTimeout c1))
        by (apply ok_arm; assumption).
      destruct (has_onLoad (props (setControlTimeout c1)));
        [eapply ok_same; [| | | exact Hok1]; reflexivity | exact Hok1].
    + destruct (has_onLoad (props c1)); apply ok_empty; exact H1.
  - (* progress *)
    destruct (onProgress_view t c) as (H1 & H2 & H3).
    exact (ok_same c _ H1 H2 H3 Hok).
  - (* error *)
    unfold onError.
    destruct (has_onError (props c));
      (eapply ok_same; [| | | exact Hok]; reflexivity).
  - (* layout *)
    eapply ok_same; [| | | exact Hok]; reflexivity.
  - (* toggle controls *)
    unfold toggleControls. cbv zeta.
    set (c1 := with_state
                 (fun s => set_showControls (negb (showControls s)) s) c).
    assert (Hs1 : showControls (state c1) = negb (showControls (state c)))
      by reflexivity.
    destruct Hok as [Hl Hhid].
    destruct (showControls (state c)) eqn:Hs; rewrite Hs1; cbn [negb].
    + apply ok_empty.
      apply (ok_clear (hideControlAnimation c1)).
      eapply last_same; [| | exact Hl]; reflexivity.
    + apply ok_arm; [exact (Hhid eq_refl) |].
      change (showControls (state c1) = true). rewrite Hs1. reflexivity.
  - (* press on the timer text *)
    unfold renderControl_onPress, toggleTimer, resetControlTimeout.
    destruct Hok as [Hl _].
    eapply ok_same;
      [| | | apply (ok_arm (clearControlTimeout c));
             [apply ok_clear, Hl | ]].
    + reflexivity.
    + reflexivity.
    + reflexivity.
    + unfold clearControlTimeout, clearTimeout.
      destruct (controlTimeout (player c)); exact Hev.
  - (* seek grant *)
    apply ok_empty. unfold seek_onPanResponderGrant.
    apply (ok_clear c). exact (proj1 Hok).
  - (* seek move *)
    unfold seek_onPanResponderMove.
    destruct (setSeekerPosition_view (JS.add (seekerOffset (state c)) dx) c)
      as (H1 & H2 & H3).
    exact (ok_same c _ H1 H2 H3 Hok).
  - (* seek release *)
    destruct Hev as [Hp Hs].
    unfold seek_onPanResponderRelease. cbv zeta.
    destruct (JS.ge (calculateTimeFromSeekerPosition c) (duration (state c))
              && negb (loading (state c))).
    + destruct (has_onEnd (props _)); apply ok_empty; exact Hp.
    + eapply ok_same;
        [| | | apply (ok_arm (seekTo (calculateTimeFromSeekerPosition c) c))];
        try reflexivity; assumption.
  - (* volume grant *)
    apply ok_empty. unfold volume_onPanResponderGrant.
    apply (ok_clear c). exact (proj1 Hok).
  - (* volume move *)
    destruct (volume_move_view dx c) as (H1 & H2 & H3).
    exact (ok_same c _ H1 H2 H3 Hok).
  - (* volume release *)
    destruct Hev as [Hp Hs].
    unfold volume_onPanResponderRelease. cbv zeta.
    apply ok_arm; assumption.
  - (* time passes *)
    apply elapse_ok, Hok.
Qed.

Lemma timer_ok_run (es : list Event) :
  forall c : Component,
    timer_ok c -> events_ok c es -> timer_ok (run c es).
Proof.
  induction es as [| e es IH]; intros c Hok Hev; simpl; [exact Hok |].
  destruct Hev as [He Hes].
  apply IH; [apply timer_ok_preserved; assumption | exact Hes].
Qed.



(** ** Fullscreen, play and pause *)

(** X10: toggling fullscreen twice restores the fullscreen flag and every
    other key of the state, except that with toggleResizeModeOnFullscreen
    the resize mode ends as "cover" or "contain" according to the flag,
    whatever it was; the host hears one enter and one exit notification,
    exit first exactly when the component was fullscreen. *)
Theorem toggleFullscreen_twice (w : Widget) :
  state (core (toggleFullscreen (toggleFullscreen w)))
  = (if toggleResizeModeOnFullscreen (options w)
     then set_resizeMode
            (if isFullscreen (state (core w)) then "cover" else "contain")
            (state (core w))
     else state (core w))
  /\ notified (toggleFullscreen (toggleFullscreen w))
     = notified w
         ++ (if isFullscreen (state (core w))
             then (if has_onExitFullscreen (options w)
                   then [HostOnExitFullscreen] else [])
                  ++ (if has_onEnterFullscreen (options w)
                      then [HostOnEnterFullscreen] else [])
             else (if has_onEnterFullscreen (options w)
                   then [HostOnEnterFullscreen] else [])
                  ++ (if has_onExitFullscreen (options w)
                      then [HostOnExitFullscreen] else [])).
Proof.
  destruct w as [c o n]. destruct c as [pr st pl mo cl nh pe lg].
  destruct st. destruct o as [tr ls en ex pa py bk].
  destruct tr, isFullscreen0, en, ex;
    cbv -[app]; rewrite <- ?app_assoc, ?app_nil_r; split; reflexivity.
Qed.

(** X11: toggling play/pause twice restores the paused flag and the whole
    state; the host hears onPause and onPlay once each, pause first exactly
    when the video was playing. *)
Theorem togglePlayPause_twice (w : Widget) :
  state (core (togglePlayPause (togglePlayPause w))) = state (core w)
  /\ notified (togglePlayPause (togglePlayPause w))
     = notified w
         ++ (if paused (state (core w))
             then (if has_onPlay (options w) then [HostOnPlay] else [])
                  ++ (if has_onPause (options w) then [HostOnPause] else [])
             else (if has_onPause (options w) then [HostOnPause] else [])
                  ++ (if has_onPlay (options w) then [HostOnPlay] else [])).
Proof.
  destruct w as [c o n]. destruct c as [pr st pl mo cl nh pe lg].
  destruct st. destruct o as [tr ls en ex pa py bk].
  destruct paused0, pa, py;
    cbv -[app]; rewrite <- ?app_assoc, ?app_nil_r; split; reflexivity.
Qed.

(** ** Taps on the screen *)

Lemma setControlTimeout_state (c : Component) :
  state (setControlTimeout c) = state c.
Proof. reflexivity. Qed.

Lemma clearControlTimeout_state (c : Component) :
  state (clearControlTimeout c) = state c.
Proof.
  unfold clearControlTimeout, clearTimeout.
  destruct (controlTimeout (player c)); reflexivity.
Qed.

Lemma toggleControls_state (c : Component) :
  state (toggleControls c)
  = set_showControls (negb (showControls (state c))) (state c).
Proof.
  unfold toggleControls. cbv zeta.
  set (c1 := with_state
               (fun s => set_showControls (negb (showControls s)) s) c).
  destruct (showControls (state c1)).
  - rewrite setControlTimeout_state. reflexivity.
  - rewrite clearControlTimeout_state. reflexivity.
Qed.

Lemma toggleControls_fields (c : Component) :
  isFullscreen (state (toggleControls c)) = isFullscreen (state c)
  /\ lastScreenPress (state (toggleControls c)) = lastScreenPress (state c)
  /\ showControls (state (toggleControls c)) = negb (showControls (state c)).
Proof. rewrite toggleControls_state. repeat split. Qed.

Lemma toggleFullscreen_fields (w : Widget) :
  isFullscreen (state (core (toggleFullscreen w)))
  = negb (isFullscreen (state (core w)))
  /\ lastScreenPress (state (core (toggleFullscreen w)))
     = lastScreenPress (state (core w))
  /\ showControls (state (core (toggleFullscreen w)))
     = showControls (state (core w)).
Proof.
  destruct w as [c o n]. destruct c as [pr st pl mo cl nh pe lg].
  destruct st. destruct o as [tr ls en ex pa py bk].
  destruct tr, isFullscreen0, en, ex; cbv -[app]; repeat split.
Qed.

Lemma onScreenTouch_fields (time : JS.number) (w : Widget) :
  isFullscreen (state (core (onScreenTouch time w)))
  = xorb (isFullscreen (state (core w)))
      (JS.lt (JS.sub time (lastScreenPress (state (core w)))) (JS.of_Z 300))
  /\ showControls (state (core (onScreenTouch time w)))
     = negb (showControls (state (core w)))
  /\ lastScreenPress (state (core (onScreenTouch time w))) = time.
Proof.
  unfold onScreenTouch. cbv zeta.
  set (double :=
         JS.lt (JS.sub time (lastScreenPress (state (core w)))) (JS.of_Z 300)).
  set (w1 := if double then toggleFullscreen w else w).
  assert (H1 : isFullscreen (state (core w1))
               = xorb (isFullscreen (state (core w))) double
               /\ showControls (state (core w1)) = showControls (state (core w))).
  { subst w1. destruct double.
    - destruct (toggleFullscreen_fields w) as (F1 & _ & F3).
      rewrite F1, F3. rewrite xorb_true_r. split; reflexivity.
    - rewrite xorb_false_r. split; reflexivity. }
  destruct H1 as [H1 H2].
  destruct (toggleControls_fields (core w1)) as (T1 & _ & T3).
  cbn [lift core state with_state isFullscreen showControls lastScreenPress
       set_lastScreenPress].
  rewrite T1, T3, H1, H2. repeat split.
Qed.

Lemma Qc_300_le_not_lt (x : Qc) :
  (Q2Qc (inject_Z 300) <= x)%Qc -> JS.Qc_ltb x (Q2Qc (inject_Z 300)) = false.
Proof.
  intros H. destruct (JSFacts.Qc_ltb_spec x (Q2Qc (inject_Z 300))) as [H' | _];
    [| reflexivity].
  exfalso. revert H'. apply Qcle_not_lt, H.
Qed.

(** X12: after a tap at least 300 ms after the previous one (a single tap,
    which leaves fullscreen alone), a second tap g ms later flips
    fullscreen exactly when g < 300; either way the two taps leave the
    visibility of the controls as it was and the time of the second tap is
    remembered. *)
Theorem double_tap_toggles_fullscreen (w : Widget) (l t1 g : Qc) :
  lastScreenPress (state (core w)) = JS.Fin l ->
  (Q2Qc (inject_Z 300) <= t1 - l)%Qc ->
  isFullscreen (state (core (onScreenTouch (JS.Fin t1) w)))
  = isFullscreen (state (core w))
  /\ isFullscreen
       (state (core (onScreenTouch (JS.Fin (t1 + g))
                       (onScreenTouch (JS.Fin t1) w))))
     = (if JS.Qc_ltb g (Q2Qc (inject_Z 300))
        then negb (isFullscreen (state (core w)))
        else isFullscreen (state (core w)))
  /\ showControls
       (state (core (onScreenTouch (JS.Fin (t1 + g))
                       (onScreenTouch (JS.Fin t1) w))))
     = showControls (state (core w))
  /\ lastScreenPress
       (state (core (onScreenTouch (JS.Fin (t1 + g))
                       (onScreenTouch (JS.Fin t1) w))))
     = JS.Fin (t1 + g).
Proof.
  intros Hl Hgap.
  destruct (onScreenTouch_fields (JS.Fin t1) w) as (A1 & A2 & A3).
  destruct (onScreenTouch_fields (JS.Fin (t1 + g))
              (onScreenTouch (JS.Fin t1) w)) as (B1 & B2 & B3).
  rewrite B1, B2, B3, A1, A2, A3, Hl.
  assert (E1 : JS.lt (JS.sub (JS.Fin t1) (JS.Fin l)) (JS.of_Z 300) = false).
  { change (JS.Qc_ltb (t1 - l) (Q2Qc (inject_Z 300)) = false).
    apply Qc_300_le_not_lt, Hgap. }
  assert (E2 : JS.lt (JS.sub (JS.Fin (t1 + g)) (JS.Fin t1)) (JS.of_Z 300)
               = JS.Qc_ltb g (Q2Qc (inject_Z 300))).
  { change (JS.Qc_ltb (t1 + g - t1) (Q2Qc (inject_Z 300))
            = JS.Qc_ltb g (Q2Qc (inject_Z 300))).
    replace (t1 + g - t1)%Qc with g by ring. reflexivity. }
  rewrite E1, E2, xorb_false_r, negb_involutive.
  repeat split.
  destruct (JS.Qc_ltb g (Q2Qc (inject_Z 300)));
    [apply xorb_true_r | apply xorb_false_r].
Qed.

Lemma double_tap_toggles_fullscreen_witness :
  isFullscreen
    (state (core (onScreenTouch (JS.Fin (Q2Qc (inject_Z 1000) + Q2Qc (inject_Z 299)))
                    (onScreenTouch (JS.Fin (Q2Qc (inject_Z 1000)))
                       (widget defaultProps allOptions)))))
  = true
  /\ isFullscreen
       (state (core (onScreenTouch
                       (JS.Fin (Q2Qc (inject_Z 1000) + Q2Qc (inject_Z 300)))
                       (onScreenTouch (JS.Fin (Q2Qc (inject_Z 1000)))
                          (widget defaultProps allOptions)))))
     = false.
Proof.
  assert (Hl : lastScreenPress (state (core (widget defaultProps allOptions)))
               = JS.Fin (Q2Qc (inject_Z 0))) by reflexivity.
  assert (Hg : (Q2Qc (inject_Z 300) <= Q2Qc (inject_Z 1000) - Q2Qc (inject_Z 0))%Qc)
    by discriminate.
  split.
  - exact (proj1 (proj2 (double_tap_toggles_fullscreen
                           (widget defaultProps allOptions)
                           (Q2Qc (inject_Z 0)) (Q2Qc (inject_Z 1000))
                           (Q2Qc (inject_Z 299)) Hl Hg))).
  - exact (proj1 (proj2 (double_tap_toggles_fullscreen
                           (widget defaultProps allOptions)
                           (Q2Qc (inject_Z 0)) (Q2Qc (inject_Z 1000))
                           (Q2Qc (inject_Z 300)) Hl Hg))).
Defined.

(** ** Quiz markers *)

Lemma truthy_Fin (x : Qc) : x <> 0%Qc -> truthy (JS.Fin x) = true.
Proof.
  intros H. simpl. destruct (JSFacts.Qc_eqb_spec x 0%Qc); [contradiction |].
  reflexivity.
Qed.

(** X13: on a laid-out track of width W > 0 under a video of duration
    D > 0 every quiz point is rendered, in order; a marker for time t sits
    exactly where the seek handle is placed when the current time is t,
    and within the track when t is in [0, D]. *)
Theorem quiz_markers_follow_handle
  (c : Component) (W D : Qc) (qs : list QuizPoint) :
  (0 < W)%Qc ->
  (0 < D)%Qc ->
  seekerWidth (player c) = Some (JS.Fin W) ->
  duration (state c) = JS.Fin D ->
  quizPoints (props c) = Some qs ->
  renderQuizPoints c = Some (map (renderQuizPoint c) qs)
  /\ (forall (q : QuizPoint) (t : Qc),
        quiz_time q = JS.Fin t ->
        snd (renderQuizPoint c q)
        = calculateSeekerPosition (with_state (set_currentTime (JS.Fin t)) c)
        /\ fst (renderQuizPoint c q) = quiz_id q
        /\ ((0 <= t <= D)%Qc ->
            exists x : Qc,
              snd (renderQuizPoint c q) = JS.Fin x /\ (0 <= x <= W)%Qc)).
Proof.
  intros HW HD Hw Hd Hq.
  pose proof (Qclt_neq_0 W HW) as HW0.
  pose proof (Qclt_neq_0 D HD) as HD0.
  split.
  - unfold renderQuizPoints. rewrite Hq, Hw, Hd.
    cbn [ToNumber]. rewrite !truthy_Fin by assumption. reflexivity.
  - intros q t Ht.
    assert (Hm : snd (renderQuizPoint c q) = JS.Fin (W * t / D)%Qc).
    { unfold renderQuizPoint. cbn [snd]. rewrite Hw, Hd, Ht.
      cbn [ToNumber JS.mul]. apply div_Fin, HD0. }
    assert (Hh : calculateSeekerPosition
                   (with_state (set_currentTime (JS.Fin t)) c)
                 = JS.Fin (W * (t / D))%Qc).
    { unfold calculateSeekerPosition.
      cbn [state player with_state currentTime duration set_currentTime].
      rewrite Hw, Hd. cbn [ToNumber].
      rewrite (div_Fin t D HD0). reflexivity. }
    split; [| split; [reflexivity |]].
    + rewrite Hm, Hh. f_equal. field. exact HD0.
    + intros [Ht0 Ht1]. exists (W * t / D)%Qc. split; [exact Hm |].
      split.
      * apply Qcdiv_nonneg; [exact HD |].
        replace 0%Qc with (0 * t)%Qc by apply Qcmult_0_l.
        apply Qcmult_le_compat_r; [apply Qclt_le_weak, HW | exact Ht0].
      * replace W with (W * D / D)%Qc at 2
          by (apply Qcdiv_mult_l, HD0).
        apply Qcdiv_le_compat; [exact HD |].
        rewrite !(Qcmult_comm W).
        apply Qcmult_le_compat_r; [exact Ht1 | apply Qclt_le_weak, HW].
Qed.

Lemma quiz_markers_follow_handle_witness :
  renderQuizPoints quiz_scenario
  = Some (map (renderQuizPoint quiz_scenario)
            [mkQuizPoint 1 (JS.of_Z 25); mkQuizPoint 2 (JS.of_Z 50)]).
Proof.
  apply (quiz_markers_follow_handle quiz_scenario (Q2Qc (inject_Z 300))
           (Q2Qc (inject_Z 100))); reflexivity.
Defined.

(** ** Timer display at the edges *)

Lemma formatTime_NaN (t : JS.number) (c : Component) :
  JS.is_nan t = true \/ JS.is_nan (duration (state c)) = true ->
  formatTime t c = "NaN:NaN"%string.
Proof.
  intros H. unfold formatTime.
  assert (E : JS.min (JS.max t JS.zero) (duration (state c)) = JS.NaN).
  { destruct H as [H | H].
    - destruct t; try discriminate. reflexivity.
    - destruct (duration (state c)); try discriminate.
      destruct (JS.max t JS.zero); reflexivity. }
  rewrite E. reflexivity.
Qed.

(** X14: when the current time or the duration is NaN (a progress or load
    event that carries no such number), the timer shows "NaN:NaN", with
    the "-" in front in remaining mode: nothing is clamped or defaulted. *)
Theorem timer_display_NaN (c : Component) :
  JS.is_nan (currentTime (state c)) = true
  \/ JS.is_nan (duration (state c)) = true ->
  calculateTime c
  = (if showTimeRemaining (state c) then "-NaN:NaN" else "NaN:NaN")%string.
Proof.
  intros H. unfold calculateTime.
  destruct (showTimeRemaining (state c)).
  - rewrite formatTime_NaN; [reflexivity |].
    destruct H as [H | H].
    + left. destruct (currentTime (state c)); try discriminate.
      destruct (duration (state c)); reflexivity.
    + right. exact H.
  - apply formatTime_NaN. destruct H as [H | H]; [left | right]; exact H.
Qed.

Lemma timer_display_NaN_witness :
  calculateTime (onProgress JS.NaN timer_seconds) = "-NaN:NaN"%string.
Proof.
  apply (timer_display_NaN (onProgress JS.NaN timer_seconds)).
  left. reflexivity.
Defined.

Lemma clamp_at_most_zero (x d : Qc) :
  (x <= 0)%Qc -> (0 <= d)%Qc -> clamp x 0 d = 0%Qc.
Proof.
  intros Hx Hd. unfold clamp, Qc_min, Qc_max.
  qc_cases; try reflexivity; try qc_order;
    apply Qcle_antisym; try assumption; qc_order.
Qed.

Lemma clamp_at_least_bound (x d : Qc) :
  (d <= x)%Qc -> (0 <= d)%Qc -> clamp x 0 d = d.
Proof.
  intros Hx Hd. unfold clamp, Qc_min, Qc_max.
  qc_cases; try reflexivity; try qc_order;
    apply Qcle_antisym; try assumption; qc_order.
Qed.



(** ** The loader animation *)

(** X16: a load start always starts a turn of the loader (loading is set
    before the animation looks at it) and notifies the host once; while
    loading each turn that ends starts the next; after the load completes,
    or after an error that the component absorbs itself, the turn that ends
    starts no other.  When the host supplied an error handler, an error
    leaves loading set and the loader keeps turning. *)
Theorem loader_turns_while_loading
  (w : Widget) (d : JS.number) (err : string) :
  notified (onLoadStart w)
  = notified w ++ [LoaderTurn]
      ++ (if has_onLoadStart (options w) then [HostOnLoadStart] else [])
  /\ notified (loadAnimation (onLoadStart w))
     = notified (onLoadStart w) ++ [LoaderTurn]
  /\ notified (loadAnimation (lift (onLoad d) (onLoadStart w)))
     = notified (onLoadStart w)
  /\ notified (loadAnimation (lift (onError err) (onLoadStart w)))
     = notified (onLoadStart w)
         ++ (if has_onError (props (core w)) then [LoaderTurn] else []).
Proof.
  destruct w as [c o n]. destruct c as [pr st pl mo cl nh pe lg].
  destruct st. destruct o as [tr ls en ex pa py bk].
  destruct pr as [rm pp pm pv prt sos pct qps hl hp he hend].
  destruct ls, he, showControls0, hl;
    cbv -[app]; rewrite <- ?app_assoc, ?app_nil_r; repeat split.
Qed.

(** ** Clamping of the volume handle *)

Section VolumeClampLaws.

Variable c : Component.
Variable W : Qc.
Hypothesis HW : (0 < W)%Qc.
Hypothesis Hwidth : volumeWidth (player c) = JS.Fin W.

Lemma constrainToVolumeMinMax_Fin (v : Qc) :
  constrainToVolumeMinMax (JS.Fin v) c = JS.Fin (clamp v 0 (W + nine)).
Proof.
  pose proof (volume_upper_pos W HW) as Hup.
  unfold constrainToVolumeMinMax, clamp, Qc_min, Qc_max, JS.ge.
  rewrite Hwidth, JSFacts.zero_Fin. cbn [JS.add JS.of_Z JS.le]. fold nine.
  qc_cases; try reflexivity; try qc_order;
    f_equal; apply Qcle_antisym; qc_order.
Qed.

Lemma constrainToVolumeMinMax_idem (v : JS.number) :
  constrainToVolumeMinMax (constrainToVolumeMinMax v c) c
  = constrainToVolumeMinMax v c.
Proof.
  pose proof (volume_upper_pos W HW) as Hup.
  unfold constrainToVolumeMinMax, JS.ge.
  rewrite Hwidth, JSFacts.zero_Fin. cbn [JS.add JS.of_Z]. fold nine.
  destruct v as [v | | |]; cbn [JS.le]; try reflexivity.
  - qc_cases; cbn [JS.le]; qc_cases; try reflexivity; qc_order.
  - qc_cases; cbn [JS.le]; qc_cases; try reflexivity; qc_order.
Qed.

Lemma volume_clamp_mono (v1 v2 : Qc) :
  (v1 <= v2)%Qc -> (clamp v1 0 (W + nine) <= clamp v2 0 (W + nine))%Qc.
Proof.
  intros Hv. pose proof (volume_upper_pos W HW) as Hup.
  unfold clamp, Qc_min, Qc_max. qc_cases; qc_order.
Qed.

End VolumeClampLaws.

(** X17: with a volume track of width W > 0, the position of the volume
    handle is clamp(v, 0, W + 9) for every finite request v, so the handle
    may pass the end of the track by 9 px; clamping twice is clamping once,
    for every number, and the clamped position is monotone in the
    request. *)
Theorem volume_handle_clamped (c : Component) (W : Qc) :
  (0 < W)%Qc ->
  volumeWidth (player c) = JS.Fin W ->
  (forall v : Qc,
      constrainToVolumeMinMax (JS.Fin v) c = JS.Fin (clamp v 0 (W + nine)))
  /\ (forall v : JS.number,
        constrainToVolumeMinMax (constrainToVolumeMinMax v c) c
        = constrainToVolumeMinMax v c)
  /\ (forall v1 v2 : Qc,
        (v1 <= v2)%Qc ->
        (clamp v1 0 (W + nine) <= clamp v2 0 (W + nine))%Qc)
  /\ constrainToVolumeMinMax JS.PInf c = JS.Fin (W + nine)
  /\ constrainToVolumeMinMax JS.NaN c = JS.NaN.
Proof.
  intros HW Hwidth.
  split; [intros v; apply constrainToVolumeMinMax_Fin; assumption |].
  split; [intros v; eapply constrainToVolumeMinMax_idem; eassumption |].
  split; [intros v1 v2; apply volume_clamp_mono; assumption |].
  unfold constrainToVolumeMinMax, JS.ge. rewrite Hwidth.
  split; reflexivity.
Qed.

Lemma volume_handle_clamped_witness :
  constrainToVolumeMinMax (JS.Fin (Q2Qc (inject_Z 400))) (mount defaultProps)
  = JS.Fin (clamp (Q2Qc (inject_Z 400)) 0 (c150 + nine)).
Proof.
  apply (proj1 (volume_handle_clamped (mount defaultProps) c150
                  eq_refl eq_refl)).
Defined.
